(** * suggest-swaps.py: a shallow embedding of the OSD swap suggester

    The Python program keeps its devices as mutable [CephOsd] objects that
    are shared between the device list and the per-host buckets.  The
    embedding keeps that sharing: a device is a reference into a heap of
    records, a bucket is a list of references, and [swap_osd] updates the
    heap and the buckets in place (as explicit state passing).

    Python dictionaries keep insertion order and the program depends on it
    (the order in which the buckets of a host are chained decides ties), so a
    dictionary is an association list with first-match lookup.

    numpy's [np.std] and the float arithmetic on its results are taken
    through the interface [Dispersion]; the instance [RealDispersion]
    reads them as exact real numbers (rounding is not modelled). *)

From Stdlib Require Import ZArith Ascii String Reals Lra Lia.
From stdpp Require Import base option list strings pretty sorting.

Open Scope Z_scope.

#[local] Set Warnings "-clear-no-such-hyp".

(** ** Exceptions and fallible computations *)

Inductive exn : Type :=
  | StopIteration                (* next() on an exhausted generator *)
  | KeyError (key : string)      (* d[key] on a missing key *)
  | ValueError                   (* list.remove(x): x not in list *)
  | OSError                      (* subprocess.run could not start the command *)
  | JSONDecodeError.             (* json.loads on malformed text *)

Inductive result (A : Type) : Type :=
  | Ok (a : A)
  | Raise (e : exn).
Arguments Ok {A} a.
Arguments Raise {A} e.

#[export] Instance result_ret : MRet result := @Ok.
#[export] Instance result_bind : MBind result := λ A B f m,
  match m with Ok a => f a | Raise e => Raise e end.

Fixpoint foldM {A B : Type} (f : A → B → result A) (a : A) (l : list B) : result A :=
  match l with
  | [] => Ok a
  | x :: l' => a' ← f a x; foldM f a' l'
  end.

Fixpoint mapM_res {A B : Type} (f : A → result B) (l : list A) : result (list B) :=
  match l with
  | [] => Ok []
  | x :: l' => y ← f x; ys ← mapM_res f l'; Ok (y :: ys)
  end.

(** ** Insertion-ordered dictionaries with string keys *)

Abbreviation dict V := (list (string * V)).

Fixpoint dict_get {V : Type} (k : string) (d : dict V) : option V :=
  match d with
  | [] => None
  | (k', v) :: d' => if decide (k' = k) then Some v else dict_get k d'
  end.

(** [d[k]]: raises [KeyError] on a missing key. *)
Definition dict_item {V : Type} (k : string) (d : dict V) : result V :=
  match dict_get k d with Some v => Ok v | None => Raise (KeyError k) end.

(** In-place update of the value stored under [k] (nothing when absent). *)
Fixpoint dict_alter {V : Type} (f : V → V) (k : string) (d : dict V) : dict V :=
  match d with
  | [] => []
  | (k', v) :: d' =>
      if decide (k' = k) then (k', f v) :: d' else (k', v) :: dict_alter f k d'
  end.

(** [d.setdefault(k, v0)] as far as the dictionary is concerned: a new key
    goes to the end. *)
Definition dict_setdefault {V : Type} (k : string) (v0 : V) (d : dict V) : dict V :=
  match dict_get k d with Some _ => d | None => d ++ [(k, v0)] end.

(** [d.setdefault(k, []).append(x)] *)
Definition dict_append {V : Type} (k : string) (x : V) (d : dict (list V)) : dict (list V) :=
  dict_alter (λ l, l ++ [x]) k (dict_setdefault k [] d).

Definition dict_keys {V : Type} (d : dict V) : list string := fst <$> d.
Definition dict_values {V : Type} (d : dict V) : list V := snd <$> d.

(** ** The data model *)

Module CephOsd.
Record t : Type := mk {
  id : Z;
  bluestore_bdev_size : Z;
  device_ids : string;
  hostname : string;
  bluestore_bdev_type : string
}.
(** Stands for an object that was never allocated; a well-formed cluster
    never dereferences it. *)
Definition unallocated : t := mk 0 0 "" "" "".
Definition with_hostname (h : string) (o : t) : t :=
  mk (id o) (bluestore_bdev_size o) (device_ids o) h (bluestore_bdev_type o).
End CephOsd.

#[export] Instance CephOsd_eq_dec : EqDecision CephOsd.t.
Proof. solve_decision. Defined.

(** A reference to a [CephOsd] object: its index in the heap. *)
Abbreviation ref := nat.
Abbreviation heap := (list CephOsd.t).

Definition deref (σ : heap) (r : ref) : CephOsd.t :=
  default CephOsd.unallocated (σ !! r).

Module CephHost.
Record t : Type := mk {
  hostname : string;
  osd_by_type : dict (list ref)
}.
End CephHost.

(** The program state that [swap_osd] mutates: the OSD objects and the list
    of hosts whose buckets point to them. *)
Record Cluster : Type := mkCluster {
  osds : heap;
  hosts : list CephHost.t
}.

(** ** group_osds_by_host_and_type *)

Definition group_step (σ : heap) (acc : dict (dict (list ref))) (r : ref)
    : dict (dict (list ref)) :=
  let osd := deref σ r in
  dict_alter (dict_append (CephOsd.bluestore_bdev_type osd) r)
             (CephOsd.hostname osd)
             (dict_setdefault (CephOsd.hostname osd) [] acc).

Definition group_osds_by_host_and_type (devices : list CephOsd.t) : Cluster :=
  let grouped := foldl (group_step devices) [] (seq 0 (length devices)) in
  mkCluster devices ((λ '(host, types), CephHost.mk host types) <$> grouped).

(** ** calculate_spread_by_type *)

Definition sum_Z (l : list Z) : Z := foldl Z.add 0 l.

Definition bucket_total (σ : heap) (bucket : list ref) : Z :=
  sum_Z ((λ r, CephOsd.bluestore_bdev_size (deref σ r)) <$> bucket) `div` 10 ^ 9.

(** The dictionary [total_sizes_by_type] at the end of the two loops. *)
Definition total_sizes_by_type (c : Cluster) : dict (list Z) :=
  foldl (λ acc host,
           foldl (λ acc '(osd_type, bucket),
                    dict_append osd_type (bucket_total (osds c) bucket) acc)
                 acc (CephHost.osd_by_type host))
        [] (hosts c).

(** ** swap_osd *)

(** [next(host for host in hosts if host.hostname == name)], as the index
    of that host in [hosts]. *)
Definition find_host (hs : list CephHost.t) (name : string) : result nat :=
  match list_find (λ h, CephHost.hostname h = name) hs with
  | Some (i, _) => Ok i
  | None => Raise StopIteration
  end.

(** [l.remove(x)]: drops the first item equal to [x].  A dataclass compares
    by fields, so the item dropped is the first whose record equals [x]'s. *)
Fixpoint list_remove (σ : heap) (x : ref) (l : list ref) : result (list ref) :=
  match l with
  | [] => Raise ValueError
  | y :: l' =>
      if decide (σ !! y = σ !! x) then Ok l'
      else l'' ← list_remove σ x l'; Ok (y :: l'')
  end.

Definition set_bucket (i : nat) (ty : string) (l : list ref)
    (hs : list CephHost.t) : list CephHost.t :=
  alter (λ h, CephHost.mk (CephHost.hostname h)
                (dict_alter (λ _, l) ty (CephHost.osd_by_type h))) i hs.

Definition get_bucket (i : nat) (ty : string) (hs : list CephHost.t)
    : result (list ref) :=
  match hs !! i with
  | Some h => dict_item ty (CephHost.osd_by_type h)
  | None => Raise StopIteration   (* [i] comes from [find_host]: not reached *)
  end.

(** [hosts[i].osd_by_type[ty].remove(x)] *)
Definition bucket_remove (σ : heap) (i : nat) (ty : string) (x : ref)
    (hs : list CephHost.t) : result (list CephHost.t) :=
  l ← get_bucket i ty hs;
  l' ← list_remove σ x l;
  Ok (set_bucket i ty l' hs).

(** [hosts[i].osd_by_type[ty].append(x)] *)
Definition bucket_append (i : nat) (ty : string) (x : ref)
    (hs : list CephHost.t) : result (list CephHost.t) :=
  l ← get_bucket i ty hs;
  Ok (set_bucket i ty (l ++ [x]) hs).

Definition set_hostname (r : ref) (name : string) (σ : heap) : heap :=
  alter (CephOsd.with_hostname name) r σ.

Definition swap_osd (c : Cluster) (osd_a osd_b : ref) : result Cluster :=
  let σ := osds c in
  let a := deref σ osd_a in
  let b := deref σ osd_b in
  host_a ← find_host (hosts c) (CephOsd.hostname a);
  host_b ← find_host (hosts c) (CephOsd.hostname b);
  hs1 ← bucket_remove σ host_a (CephOsd.bluestore_bdev_type a) osd_a (hosts c);
  hs2 ← bucket_remove σ host_b (CephOsd.bluestore_bdev_type b) osd_b hs1;
  let σ' := set_hostname osd_b (CephOsd.hostname a)
              (set_hostname osd_a (CephOsd.hostname b) σ) in
  hs3 ← bucket_append host_a (CephOsd.bluestore_bdev_type b) osd_b hs2;
  hs4 ← bucket_append host_b (CephOsd.bluestore_bdev_type a) osd_a hs3;
  Ok (mkCluster σ' hs4).

(** ** print_state and the lines of a swap *)

Definition upper_ascii (ch : ascii) : ascii :=
  let n := nat_of_ascii ch in
  if (97 <=? n)%nat && (n <=? 122)%nat then ascii_of_nat (n - 32) else ch.

(** [s.upper()] on ASCII letters (tier labels such as hdd, ssd, nvme). *)
Fixpoint upper (s : string) : string :=
  match s with
  | EmptyString => EmptyString
  | String ch s' => String (upper_ascii ch) (upper s')
  end.

(** [sep.join(l)] *)
Fixpoint join (sep : string) (l : list string) : string :=
  match l with
  | [] => ""
  | [x] => x
  | x :: l' => x +:+ sep +:+ join sep l'
  end.

(** [sorted(l, key=key)] for string keys: a stable insertion sort. *)
Fixpoint insert_by {A : Type} (key : A → string) (x : A) (l : list A) : list A :=
  match l with
  | [] => [x]
  | y :: l' => if String.leb (key x) (key y) then x :: l else y :: insert_by key x l'
  end.
Definition sorted_by {A : Type} (key : A → string) (l : list A) : list A :=
  foldr (insert_by key) [] l.

Definition gb (n : Z) : string := pretty (n `div` 10 ^ 9).

Definition print_bucket (σ : heap) (osd_type : string) (bucket : list ref) : string :=
  let osd_strs :=
    (λ r, "osd." +:+ pretty (CephOsd.id (deref σ r)) +:+ " "
          +:+ gb (CephOsd.bluestore_bdev_size (deref σ r)) +:+ "GB") <$> bucket in
  "  " +:+ upper osd_type +:+ " (total " +:+ pretty (bucket_total σ bucket)
       +:+ " GB): " +:+ join ", " osd_strs.

Definition print_state (c : Cluster) : list string :=
  concat ((λ host,
             CephHost.hostname host ::
             ((λ '(osd_type, bucket), print_bucket (osds c) osd_type bucket)
                <$> sorted_by fst (CephHost.osd_by_type host)))
          <$> sorted_by CephHost.hostname (hosts c)).

Definition print_osd (σ : heap) (r : ref) : string :=
  let osd := deref σ r in
  "  osd." +:+ pretty (CephOsd.id osd) +:+ " @ " +:+ CephOsd.hostname osd
    +:+ ", device: " +:+ CephOsd.device_ids osd
    +:+ ", (" +:+ gb (CephOsd.bluestore_bdev_size osd) +:+ "GB "
    +:+ CephOsd.bluestore_bdev_type osd +:+ ")".

Definition print_swap (σ : heap) (i : Z) (osd_a osd_b : ref) : list string :=
  ["Swap #" +:+ pretty i +:+ ":"; print_osd σ osd_a; "  <->"; print_osd σ osd_b; ""].

(** ** get_ceph_osd_metadata *)






(** ** find_best_swap *)

(** What the program needs of numpy and of Python floats. *)
Class Dispersion (F : Type) : Type := {
  np_std : list Z → F;       (* float(np.std(sizes)) *)
  fsub : F → F → F;          (* x - y *)
  fadd : F → F → F;          (* x + y *)
  fzero : F;                 (* the int 0 that sum() starts from *)
  fgt : F → F → bool;        (* x > y *)
  fge : F → F → bool         (* x >= y *)
}.

(** [list(chain( *host.osd_by_type.values()))] *)
Definition host_osds (h : CephHost.t) : list ref :=
  concat (dict_values (CephHost.osd_by_type h)).

(** The test that skips a pair as a no-op. *)
Definition same_size_and_type (σ : heap) (osd_a osd_b : ref) : bool :=
  bool_decide
    (CephOsd.bluestore_bdev_size (deref σ osd_a) = CephOsd.bluestore_bdev_size (deref σ osd_b)
     ∧ CephOsd.bluestore_bdev_type (deref σ osd_a) = CephOsd.bluestore_bdev_type (deref σ osd_b)).

Section Search.
Context {F : Type} `{Dispersion F}.

Definition calculate_spread_by_type (c : Cluster) : dict F :=
  (λ '(osd_type, sizes), (osd_type, np_std sizes)) <$> total_sizes_by_type c.

(** Python's [sum]: [((0 + x1) + x2) + ...]. *)
Definition fsum (l : list F) : F := foldl fadd fzero l.

(** The local variables of [find_best_swap] together with the cluster it
    mutates.  [highest_spread_improvement] starts at minus infinity, which
    is [None] here. *)
Record search : Type := mkSearch {
  cluster : Cluster;
  best_swap : option (ref * ref);
  highest_spread_improvement : option F
}.

Definition exceeds (x : F) (highest : option F) : bool :=
  match highest with None => true | Some h => fgt x h end.

Definition improvements_per_type (original new : dict F) : result (list F) :=
  mapM_res (λ ty, o ← dict_item ty original; n ← dict_item ty new; Ok (fsub o n))
           (dict_keys original).

(** The body of the innermost loop, for one pair of devices. *)
Definition try_swap (original : dict F) (s : search) (osd_a osd_b : ref)
    : result search :=
  if same_size_and_type (osds (cluster s)) osd_a osd_b then Ok s
  else
    c1 ← swap_osd (cluster s) osd_a osd_b;
    let new_spread_by_type := calculate_spread_by_type c1 in
    imps ← improvements_per_type original new_spread_by_type;
    let total_spread_improvement := fsum imps in
    let all_spreads_not_increased := forallb (λ imp, fge imp fzero) imps in
    let accept := fgt total_spread_improvement fzero
                  && exceeds total_spread_improvement (highest_spread_improvement s)
                  && all_spreads_not_increased in
    c2 ← swap_osd c1 osd_a osd_b;
    Ok (if accept
        then mkSearch c2 (Some (osd_a, osd_b)) (Some total_spread_improvement)
        else mkSearch c2 (best_swap s) (highest_spread_improvement s)).

(** The body of the loop over [host_b], for the hosts at positions [i]
    and [j] of [hosts]. *)
Definition visit_pair (original : dict F) (i : nat) (s : search) (j : nat)
    : result search :=
  match hosts (cluster s) !! i, hosts (cluster s) !! j with
  | Some host_a, Some host_b =>
      if decide (CephHost.hostname host_a = CephHost.hostname host_b) then Ok s
      else
        let host_a_osds := host_osds host_a in
        let host_b_osds := host_osds host_b in
        foldM (λ s osd_a, foldM (λ s osd_b, try_swap original s osd_a osd_b)
                                s host_b_osds)
              s host_a_osds
  | _, _ => Ok s
  end.

(** Returns the pair together with the cluster as the search leaves it. *)
Definition find_best_swap (c : Cluster) : result (Cluster * option (ref * ref)) :=
  let original_spread_by_type := calculate_spread_by_type c in
  let positions := seq 0 (length (hosts c)) in
  s ← foldM (λ s i, foldM (visit_pair original_spread_by_type i) s positions)
            (mkSearch c None None) positions;
  Ok (cluster s, best_swap s).

(** The loop of [optimize], from swap number [i] on: the swaps it applies,
    the lines it prints and the final cluster.  [None] when [fuel]
    iterations were not enough. *)
Fixpoint optimize_loop (fuel : nat) (i : Z) (c : Cluster)
    : result (option (list (ref * ref) * list string * Cluster)) :=
  match fuel with
  | O => Ok None
  | S fuel' =>
      '(c1, best) ← find_best_swap c;
      match best with
      | None => Ok (Some ([], [], c1))
      | Some (osd_a, osd_b) =>
          let printed := print_swap (osds c1) i osd_a osd_b in
          c2 ← swap_osd c1 osd_a osd_b;
          r ← optimize_loop fuel' (i + 1) c2;
          Ok (match r with
              | Some (swaps, out, c3) =>
                  Some ((osd_a, osd_b) :: swaps, printed ++ out, c3)
              | None => None
              end)
      end
  end.

(** [optimize]: everything it prints, the swaps and the final cluster. *)
Definition optimize (fuel : nat) (c : Cluster)
    : result (option (list (ref * ref) * list string * Cluster)) :=
  r ← optimize_loop fuel 1 c;
  Ok (match r with
      | Some (swaps, out, c') =>
          Some (swaps,
                ["---------- Initial state:"] ++ print_state c ++ [""]
                ++ ["---------- Balancing steps:"] ++ out ++ [""]
                ++ ["---------- Final state:"] ++ print_state c',
                c')
      | None => None
      end).


End Search.

(** ** Dispersions as exact real numbers *)

Definition sum_R (l : list R) : R := foldr Rplus 0%R l.

Definition mean (xs : list Z) : R := (sum_R (IZR <$> xs) / INR (length xs))%R.

(** The population standard deviation. *)
Definition std_R (xs : list Z) : R :=
  sqrt (sum_R ((λ x, (IZR x - mean xs) * (IZR x - mean xs))%R <$> xs) / INR (length xs)).

#[export] Instance Rlt_decision (x y : R) : Decision (x < y)%R := Rlt_dec x y.
#[export] Instance Rle_decision (x y : R) : Decision (x <= y)%R := Rle_dec x y.

#[export] Instance RealDispersion : Dispersion R := {|
  np_std := std_R;
  fsub := Rminus;
  fadd := Rplus;
  fzero := 0%R;
  fgt := λ x y, bool_decide (y < x)%R;
  fge := λ x y, bool_decide (y <= x)%R
|}.

(** * Properties *)

(** ** The per-tier samples of the metric *)

(** The floored total of every bucket, host by host, in the order in which
    [calculate_spread_by_type] meets them. *)
Definition floored_totals (c : Cluster) : list (list (string * Z)) :=
  (λ host, (λ '(osd_type, bucket), (osd_type, bucket_total (osds c) bucket))
             <$> CephHost.osd_by_type host) <$> hosts c.

Definition collect (entries : list (string * Z)) : dict (list Z) :=
  foldl (λ acc '(osd_type, x), dict_append osd_type x acc) [] entries.

Lemma collect_bucket_step (σ : heap) (d : dict (list ref)) (acc : dict (list Z)) :
  foldl (λ acc '(osd_type, bucket), dict_append osd_type (bucket_total σ bucket) acc) acc d
  = foldl (λ acc '(osd_type, x), dict_append osd_type x acc) acc
          ((λ '(osd_type, bucket), (osd_type, bucket_total σ bucket)) <$> d).
Proof. revert acc. induction d as [|[ty l] d IH]; intros acc; simpl; [done | apply IH]. Qed.

Lemma total_sizes_by_type_collect (c : Cluster) :
  total_sizes_by_type c = collect (concat (floored_totals c)).
Proof.
  unfold total_sizes_by_type, collect, floored_totals.
  generalize (@nil (string * list Z)). induction (hosts c) as [|h hs IH]; intros acc; simpl; [done|].
  by rewrite foldl_app, IH, collect_bucket_step.
Qed.

(** *** Dictionaries *)

Lemma dict_get_app {V : Type} (k : string) (d1 d2 : dict V) :
  dict_get k (d1 ++ d2)
  = match dict_get k d1 with Some v => Some v | None => dict_get k d2 end.
Proof.
  induction d1 as [|[k' v] d1 IH]; simpl; [done|]. by case_decide.
Qed.

Lemma dict_get_alter {V : Type} (f : V → V) (k : string) (d : dict V) :
  dict_get k (dict_alter f k d) = f <$> dict_get k d.
Proof.
  induction d as [|[k' v] d IH]; simpl; [done|].
  case_decide; simpl; case_decide; try done.
Qed.

Lemma dict_get_alter_ne {V : Type} (f : V → V) (k k' : string) (d : dict V) :
  k' ≠ k → dict_get k' (dict_alter f k d) = dict_get k' d.
Proof.
  intros Hne. induction d as [|[k0 v] d IH]; simpl; [done|].
  case_decide; simpl; case_decide; try done; congruence.
Qed.

Lemma dict_keys_alter {V : Type} (f : V → V) (k : string) (d : dict V) :
  dict_keys (dict_alter f k d) = dict_keys d.
Proof.
  unfold dict_keys. induction d as [|[k0 v] d IH]; simpl; [done|].
  case_decide; simpl; [done | f_equal; apply IH].
Qed.

Lemma dict_get_None {V : Type} (k : string) (d : dict V) :
  dict_get k d = None ↔ k ∉ dict_keys d.
Proof.
  unfold dict_keys. induction d as [|[k0 v] d IH]; simpl.
  - split; [intros _; apply not_elem_of_nil | done].
  - rewrite not_elem_of_cons. case_decide; simpl; [|rewrite IH]; naive_solver.
Qed.


Lemma dict_get_append {V : Type} (k : string) (x : V) (d : dict (list V)) :
  dict_get k (dict_append k x d) = Some (default [] (dict_get k d) ++ [x]).
Proof.
  unfold dict_append, dict_setdefault. rewrite dict_get_alter.
  destruct (dict_get k d) as [l|] eqn:E; simpl.
  - by rewrite E.
  - rewrite dict_get_app, E. simpl. by rewrite decide_True.
Qed.

Lemma dict_get_append_ne {V : Type} (k k' : string) (x : V) (d : dict (list V)) :
  k' ≠ k → dict_get k' (dict_append k x d) = dict_get k' d.
Proof.
  intros Hne. unfold dict_append, dict_setdefault.
  rewrite dict_get_alter_ne by done.
  destruct (dict_get k d); [done|].
  rewrite dict_get_app. destruct (dict_get k' d); [done|].
  simpl. by rewrite decide_False.
Qed.

(** The entries of tier [ty] in a stream of [(tier, total)] pairs. *)
Definition entries_of (ty : string) (entries : list (string * Z)) : list Z :=
  snd <$> filter (λ e, e.1 = ty) entries.

Lemma collect_acc_get (ty : string) (entries : list (string * Z)) (acc : dict (list Z)) :
  dict_get ty (foldl (λ acc '(osd_type, x), dict_append osd_type x acc) acc entries)
  = match dict_get ty acc, entries_of ty entries with
    | None, [] => None
    | o, l => Some (default [] o ++ l)
    end.
Proof.
  revert acc. induction entries as [|[k x] es IH]; intros acc; simpl.
  - unfold entries_of; simpl. destruct (dict_get ty acc); [by rewrite app_nil_r | done].
  - rewrite IH. unfold entries_of. rewrite filter_cons. simpl.
    case_decide as Hk.
    + subst k. rewrite dict_get_append. simpl.
      rewrite <- app_assoc. simpl.
      destruct (dict_get ty acc); done.
    + rewrite dict_get_append_ne by congruence. done.
Qed.

Lemma collect_get (ty : string) (entries : list (string * Z)) :
  dict_get ty (collect entries)
  = match entries_of ty entries with [] => None | l => Some l end.
Proof. unfold collect. rewrite collect_acc_get. simpl. by destruct (entries_of ty entries). Qed.

Lemma dict_get_fmap {V W : Type} (g : V → W) (k : string) (d : dict V) :
  dict_get k ((λ '(k0, v), (k0, g v)) <$> d) = g <$> dict_get k d.
Proof.
  induction d as [|[k0 v] d IH]; simpl; [done|]. by case_decide.
Qed.

(** The sample of tier [ty]: the floored total of every bucket keyed [ty],
    in host order. *)
Definition tier_sample (c : Cluster) (ty : string) : list Z :=
  entries_of ty (concat (floored_totals c)).

Lemma calculate_spread_by_type_get `{Dispersion F} (c : Cluster) (ty : string) :
  dict_get ty (calculate_spread_by_type c)
  = match tier_sample c ty with [] => None | l => Some (np_std l) end.
Proof.
  unfold calculate_spread_by_type. rewrite dict_get_fmap.
  rewrite total_sizes_by_type_collect, collect_get. fold (tier_sample c ty).
  by destruct (tier_sample c ty).
Qed.

Lemma dict_ext {V : Type} (d d' : dict V) :
  dict_keys d = dict_keys d' → NoDup (dict_keys d) →
  (∀ k, dict_get k d = dict_get k d') → d = d'.
Proof.
  unfold dict_keys. revert d'.
  induction d as [|[k v] d IH]; intros [|[k' v'] d']; simpl; try done.
  intros [= <- Hkeys] Hnd Hget. apply NoDup_cons in Hnd as [Hk Hnd].
  pose proof (Hget k) as Hk0. rewrite !decide_True in Hk0 by done.
  injection Hk0 as <-. f_equal. apply IH; [done..|].
  intros k0. specialize (Hget k0). destruct (decide (k = k0)) as [<-|]; [|done].
  pose proof (proj2 (dict_get_None k d) Hk) as ->.
  rewrite Hkeys in Hk. by pose proof (proj2 (dict_get_None k d') Hk) as ->.
Qed.

(** *** Buckets as a partial function of host position and tier *)

Definition bucket_at (hs : list CephHost.t) (i : nat) (ty : string) : option (list ref) :=
  h ← hs !! i; dict_get ty (CephHost.osd_by_type h).

(** What no swap changes: the host names and the keys of their buckets. *)
Definition shape (hs : list CephHost.t) : list (string * list string) :=
  (λ h, (CephHost.hostname h, dict_keys (CephHost.osd_by_type h))) <$> hs.

Definition keys_nodup (hs : list CephHost.t) : Prop :=
  Forall (λ h, NoDup (dict_keys (CephHost.osd_by_type h))) hs.

Lemma shape_lookup (hs hs' : list CephHost.t) (i : nat) (h : CephHost.t) :
  shape hs = shape hs' → hs !! i = Some h →
  ∃ h', hs' !! i = Some h' ∧ CephHost.hostname h' = CephHost.hostname h
        ∧ dict_keys (CephHost.osd_by_type h') = dict_keys (CephHost.osd_by_type h).
Proof.
  intros Hs Hi. assert (shape hs !! i = shape hs' !! i) as Hl by by rewrite Hs.
  unfold shape in Hl. rewrite !list_lookup_fmap, Hi in Hl. simpl in Hl.
  destruct (hs' !! i) as [h'|]; simplify_eq/=. eauto.
Qed.

Lemma shape_length (hs hs' : list CephHost.t) :
  shape hs = shape hs' → length hs = length hs'.
Proof. intros Hs. apply (f_equal length) in Hs. unfold shape in Hs. by rewrite !length_fmap in Hs. Qed.

Lemma hosts_ext (hs hs' : list CephHost.t) :
  shape hs = shape hs' → keys_nodup hs →
  (∀ i ty, bucket_at hs i ty = bucket_at hs' i ty) → hs = hs'.
Proof.
  intros Hs Hnd Hb. apply list_eq. intros i.
  destruct (hs !! i) as [h|] eqn:Hi.
  - destruct (shape_lookup _ _ _ _ Hs Hi) as (h' & Hi' & Hn & Hk). rewrite Hi'. f_equal.
    destruct h as [n d], h' as [n' d']; simpl in *. subst n'. f_equal.
    apply dict_ext; [done| |].
    + by apply (Forall_lookup_1 _ _ _ _ Hnd Hi).
    + intros k. specialize (Hb i k). unfold bucket_at in Hb. by rewrite Hi, Hi' in Hb.
  - apply lookup_ge_None in Hi. symmetry. apply lookup_ge_None.
    by rewrite <- (shape_length _ _ Hs).
Qed.

Lemma shape_set_bucket (i : nat) (ty : string) (l : list ref) (hs : list CephHost.t) :
  shape (set_bucket i ty l hs) = shape hs.
Proof.
  unfold shape, set_bucket. apply list_eq. intros j.
  rewrite !list_lookup_fmap. destruct (decide (i = j)) as [<-|].
  - rewrite list_lookup_alter_eq. destruct (hs !! i); simpl; [|done].
    by rewrite dict_keys_alter.
  - by rewrite list_lookup_alter_ne.
Qed.

Lemma bucket_at_set_bucket (i j : nat) (ty ty' : string) (l : list ref) (hs : list CephHost.t) :
  bucket_at (set_bucket i ty l hs) j ty'
  = if decide (i = j ∧ ty = ty') then (λ _, l) <$> bucket_at hs j ty'
    else bucket_at hs j ty'.
Proof.
  unfold bucket_at, set_bucket. destruct (decide (i = j)) as [<-|Hij].
  - rewrite list_lookup_alter_eq. destruct (hs !! i) as [h|]; simpl.
    + case_decide as Hd.
      * destruct Hd as [_ <-]. apply dict_get_alter.
      * apply dict_get_alter_ne. naive_solver.
    + by case_decide.
  - rewrite list_lookup_alter_ne by done. rewrite decide_False by naive_solver. done.
Qed.

Lemma keys_nodup_shape (hs hs' : list CephHost.t) :
  shape hs = shape hs' → keys_nodup hs → keys_nodup hs'.
Proof.
  intros Hs Hnd. apply Forall_lookup_2. intros i h' Hi'.
  destruct (shape_lookup _ _ _ _ (eq_sym Hs) Hi') as (h & Hi & _ & Hk).
  rewrite <- Hk. by apply (Forall_lookup_1 _ _ _ _ Hnd Hi).
Qed.

Lemma get_bucket_Ok (i : nat) (ty : string) (hs : list CephHost.t) (l : list ref) :
  get_bucket i ty hs = Ok l ↔ bucket_at hs i ty = Some l.
Proof.
  unfold get_bucket, bucket_at, dict_item. destruct (hs !! i) as [h|]; simpl; [|done].
  destruct (dict_get ty (CephHost.osd_by_type h)); naive_solver.
Qed.

Lemma get_bucket_Some (i : nat) (ty : string) (hs : list CephHost.t) (l : list ref) :
  bucket_at hs i ty = Some l → get_bucket i ty hs = Ok l.
Proof. apply get_bucket_Ok. Qed.

Lemma get_bucket_None (i : nat) (ty : string) (hs : list CephHost.t) :
  is_Some (hs !! i) → bucket_at hs i ty = None → get_bucket i ty hs = Raise (KeyError ty).
Proof.
  unfold get_bucket, bucket_at, dict_item. intros [h ->]; simpl. by intros ->.
Qed.

(** *** Removing an item from a bucket *)

(** The list without the first occurrence of [x]. *)
Fixpoint drop_first (x : ref) (l : list ref) : list ref :=
  match l with
  | [] => []
  | y :: l' => if decide (y = x) then l' else y :: drop_first x l'
  end.


Lemma drop_first_snoc (x : ref) (l : list ref) : x ∉ l → drop_first x (l ++ [x]) = l.
Proof.
  induction l as [|y l IH]; simpl; [by rewrite decide_True|].
  rewrite not_elem_of_cons. intros [Hxy Hl].
  rewrite decide_False by done. by rewrite IH.
Qed.

Lemma drop_first_app_notin (x y : ref) (l : list ref) :
  x ≠ y → drop_first x (l ++ [y]) = drop_first x l ++ [y].
Proof.
  intros Hxy. induction l as [|z l IH]; simpl.
  - by rewrite decide_False.
  - case_decide; [done|]. by rewrite IH.
Qed.

Lemma drop_first_perm (x : ref) (l : list ref) : x ∈ l → l ≡ₚ x :: drop_first x l.
Proof.
  induction l as [|y l IH]; simpl; [by intros ?%elem_of_nil|].
  case_decide as Hy; [by subst|].
  intros [?|Hin]%elem_of_cons; [congruence|].
  rewrite (IH Hin) at 1. apply Permutation_swap.
Qed.

Lemma drop_first_elem_of (x y : ref) (l : list ref) : y ∈ drop_first x l → y ∈ l.
Proof.
  induction l as [|z l IH]; simpl; [done|].
  case_decide; rewrite ?elem_of_cons; naive_solver.
Qed.

Lemma drop_first_last (x : ref) (l : list ref) :
  NoDup (l ++ [x]) → drop_first x (l ++ [x]) ++ [x] = l ++ [x].
Proof.
  intros Hnd. rewrite drop_first_snoc; [done|].
  apply NoDup_app in Hnd as (_ & Hd & _). intros Hin. apply (Hd x Hin). by apply list_elem_of_singleton.
Qed.

(** With pairwise distinct objects [remove] drops the object itself. *)
Lemma list_remove_drop_first (σ : heap) (x : ref) (l : list ref) :
  NoDup σ → is_Some (σ !! x) →
  list_remove σ x l = if decide (x ∈ l) then Ok (drop_first x l) else Raise ValueError.
Proof.
  intros Hnd [v Hx]. induction l as [|y l IH].
  - rewrite decide_False; [done | apply not_elem_of_nil].
  - cbn [list_remove drop_first].
    destruct (decide (σ !! y = σ !! x)) as [Heq|Hne].
    + assert (y = x) as -> by (rewrite Hx in Heq; by eapply NoDup_lookup).
      rewrite !decide_True; [done.. | by left].
    + assert (y ≠ x) by congruence. rewrite (decide_False (P:=y = x)) by done.
      rewrite IH. destruct (decide (x ∈ l)) as [Hin|Hnin].
      * rewrite decide_True; [done | by right].
      * rewrite decide_False; [done|]. rewrite not_elem_of_cons. naive_solver.
Qed.

(** *** Well-formed clusters *)

Lemma elem_of_concat {A : Type} (x : A) (ls : list (list A)) :
  x ∈ concat ls ↔ ∃ l, x ∈ l ∧ l ∈ ls.
Proof.
  induction ls as [|l ls IH]; simpl.
  - split; [by intros ?%elem_of_nil | by intros (? & _ & ?%elem_of_nil)].
  - rewrite elem_of_app, IH. split.
    + intros [?|(l' & ? & ?)]; [exists l; split; [done | by left] | exists l'; split; [done | by right]].
    + intros (l' & ? & [->|?]%elem_of_cons); [by left | right; by exists l'].
Qed.

(** Every device held by some bucket, host after host. *)
Definition hosts_osds (hs : list CephHost.t) : list ref := concat (host_osds <$> hs).

(** A device sits at the host that its [hostname] names, in the bucket
    keyed by its own tier. *)
Definition placed (σ : heap) (hs : list CephHost.t) : Prop :=
  Forall (λ h,
    Forall (λ e : string * list ref,
      Forall (λ r, CephOsd.hostname (deref σ r) = CephHost.hostname h
                   ∧ CephOsd.bluestore_bdev_type (deref σ r) = e.1) e.2)
      (CephHost.osd_by_type h)) hs.

(** The invariant of the data model: identifiers and host names are
    unique, a dictionary has no key twice, no device is held twice, every
    device held exists, and every device is where its fields say. *)
Definition wf (c : Cluster) : Prop :=
  NoDup (CephOsd.id <$> osds c)
  ∧ NoDup (CephHost.hostname <$> hosts c)
  ∧ keys_nodup (hosts c)
  ∧ NoDup (hosts_osds (hosts c))
  ∧ Forall (λ r, r < length (osds c))%nat (hosts_osds (hosts c))
  ∧ placed (osds c) (hosts c).

#[export] Instance wf_dec (c : Cluster) : Decision (wf c).
Proof. unfold wf, keys_nodup, placed. apply _. Defined.

Lemma dict_get_Some_elem_of {V : Type} (k : string) (v : V) (d : dict V) :
  dict_get k d = Some v → (k, v) ∈ d.
Proof.
  induction d as [|[k' v'] d IH]; simpl; [done|].
  case_decide; [intros [= <-]; subst; by left | intros ?; right; auto].
Qed.

Lemma bucket_at_elem_of (hs : list CephHost.t) (i : nat) (ty : string) (l : list ref) :
  bucket_at hs i ty = Some l →
  ∃ h, hs !! i = Some h ∧ (ty, l) ∈ CephHost.osd_by_type h.
Proof.
  unfold bucket_at. destruct (hs !! i) as [h|]; simpl; [|done].
  intros Hg. exists h. split; [done|]. by apply dict_get_Some_elem_of.
Qed.

Lemma bucket_at_subset (hs : list CephHost.t) (i : nat) (ty : string) (l : list ref) (r : ref) :
  bucket_at hs i ty = Some l → r ∈ l → r ∈ hosts_osds hs.
Proof.
  intros (h & Hi & Hin)%bucket_at_elem_of Hr.
  unfold hosts_osds. apply elem_of_concat. exists (host_osds h). split.
  - unfold host_osds. apply elem_of_concat. exists l. split; [done|].
    unfold dict_values. apply list_elem_of_fmap. exists (ty, l). done.
  - apply list_elem_of_fmap. exists h. split; [done|]. by eapply list_elem_of_lookup_2.
Qed.

Lemma placed_at (σ : heap) (hs : list CephHost.t) (i : nat) (ty : string)
    (l : list ref) (r : ref) :
  placed σ hs → bucket_at hs i ty = Some l → r ∈ l →
  ∃ h, hs !! i = Some h
       ∧ CephOsd.hostname (deref σ r) = CephHost.hostname h
       ∧ CephOsd.bluestore_bdev_type (deref σ r) = ty.
Proof.
  intros Hp (h & Hi & Hin)%bucket_at_elem_of Hr. exists h. split; [done|].
  unfold placed in Hp. rewrite Forall_forall in Hp.
  specialize (Hp h (list_elem_of_lookup_2 _ _ _ Hi)).
  rewrite Forall_forall in Hp. specialize (Hp _ Hin). simpl in Hp.
  rewrite Forall_forall in Hp. by apply Hp.
Qed.

(** Every device held is in the bucket found through [bucket_at]. *)
Lemma hosts_osds_bucket_at (hs : list CephHost.t) (r : ref) :
  keys_nodup hs → r ∈ hosts_osds hs →
  ∃ i ty l, bucket_at hs i ty = Some l ∧ r ∈ l.
Proof.
  intros Hk. unfold hosts_osds. rewrite elem_of_concat.
  intros (lh & Hr & (h & -> & Hh)%list_elem_of_fmap).
  apply list_elem_of_lookup in Hh as [i Hi].
  unfold host_osds in Hr. apply elem_of_concat in Hr as (l & Hr & Hl).
  unfold dict_values in Hl. apply list_elem_of_fmap in Hl as ([ty l'] & -> & Hl). simpl in Hr.
  exists i, ty, l'. split; [|done]. unfold bucket_at. rewrite Hi. simpl.
  pose proof (Forall_lookup_1 _ _ _ _ Hk Hi) as Hnd. simpl in Hnd.
  clear Hi. revert Hnd Hl. generalize (CephHost.osd_by_type h). intros d.
  induction d as [|[k v] d IH]; simpl; [by intros _ ?%elem_of_nil|].
  unfold dict_keys. simpl. rewrite NoDup_cons. intros [Hk' Hnd] [Heq|Hin]%elem_of_cons.
  - injection Heq as <- <-. by rewrite decide_True.
  - rewrite decide_False; [by apply IH|]. intros ->. apply Hk'.
    apply list_elem_of_fmap. by exists (ty, l').
Qed.

Lemma find_host_lookup (hs : list CephHost.t) (i : nat) (h : CephHost.t) :
  NoDup (CephHost.hostname <$> hs) → hs !! i = Some h →
  find_host hs (CephHost.hostname h) = Ok i.
Proof.
  intros Hnd Hi. unfold find_host.
  destruct (list_find _ hs) as [[j h']|] eqn:Hf.
  - apply list_find_Some in Hf as (Hj & Hn & _). f_equal.
    apply (NoDup_lookup _ _ _ (CephHost.hostname h) Hnd); rewrite list_lookup_fmap.
    + by rewrite Hj; simpl; rewrite Hn.
    + by rewrite Hi.
  - apply list_find_None in Hf. rewrite Forall_forall in Hf.
    exfalso. apply (Hf h); [by eapply list_elem_of_lookup_2 | done].
Qed.

Lemma dict_alter_perm (ty : string) (l : list ref) (d : dict (list ref)) :
  dict_get ty d = Some l →
  ∃ rest, concat (dict_values d) ≡ₚ l ++ rest
          ∧ ∀ l', concat (dict_values (dict_alter (λ _, l') ty d)) ≡ₚ l' ++ rest.
Proof.
  unfold dict_values. induction d as [|[k v] d IH]; simpl; [done|].
  case_decide as Hk.
  - intros [= ->]. exists (concat (snd <$> d)). done.
  - intros (rest & Hp & Hp')%IH. exists (v ++ rest). split.
    + rewrite Hp. rewrite !app_assoc. f_equiv. apply Permutation_app_comm.
    + intros l'. simpl. rewrite (Hp' l'). rewrite !app_assoc. f_equiv.
      apply Permutation_app_comm.
Qed.

Lemma set_bucket_perm (hs : list CephHost.t) (i : nat) (ty : string) (l : list ref) :
  bucket_at hs i ty = Some l →
  ∃ rest, hosts_osds hs ≡ₚ l ++ rest
          ∧ ∀ l', hosts_osds (set_bucket i ty l' hs) ≡ₚ l' ++ rest.
Proof.
  unfold bucket_at, hosts_osds, set_bucket. revert i.
  induction hs as [|h hs IH]; intros [|i]; simpl; try done.
  - intros (rest & Hp & Hp')%dict_alter_perm.
    exists (rest ++ concat (host_osds <$> hs)). unfold host_osds at 1. split.
    + by rewrite Hp, app_assoc.
    + intros l'. unfold host_osds at 1. simpl. by rewrite (Hp' l'), app_assoc.
  - intros (rest & Hp & Hp')%IH. exists (host_osds h ++ rest). split.
    + rewrite Hp. rewrite !app_assoc. f_equiv. apply Permutation_app_comm.
    + intros l'. rewrite (Hp' l'). rewrite !app_assoc. f_equiv.
      apply Permutation_app_comm.
Qed.

(** Distinct buckets of a cluster that holds no device twice are disjoint. *)
Lemma buckets_disjoint (hs : list CephHost.t) (i j : nat) (ty ty' : string)
    (l l' : list ref) (r : ref) :
  NoDup (hosts_osds hs) →
  bucket_at hs i ty = Some l → bucket_at hs j ty' = Some l' →
  ¬ (i = j ∧ ty = ty') → r ∈ l → r ∉ l'.
Proof.
  intros Hnd Hl Hl' Hne Hr Hr'.
  destruct (set_bucket_perm _ _ _ _ Hl) as (rest & Hp & Hp').
  assert (bucket_at (set_bucket i ty [] hs) j ty' = Some l') as Hl2.
  { rewrite bucket_at_set_bucket, decide_False by done. done. }
  pose proof (bucket_at_subset _ _ _ _ r Hl2 Hr') as Hin.
  rewrite (Hp' []) in Hin. simpl in Hin.
  rewrite Hp in Hnd. apply NoDup_app in Hnd as (_ & Hd & _). by apply (Hd r).
Qed.

Lemma bucket_nodup (hs : list CephHost.t) (i : nat) (ty : string) (l : list ref) :
  NoDup (hosts_osds hs) → bucket_at hs i ty = Some l → NoDup l.
Proof.
  intros Hnd Hl. destruct (set_bucket_perm _ _ _ _ Hl) as (rest & Hp & _).
  rewrite Hp in Hnd. by apply NoDup_app in Hnd as (? & _ & _).
Qed.

(** *** What a swap does to a well-formed cluster *)

(** The heap after the exchange of the two [hostname] fields. *)
Definition swap_hostnames (σ : heap) (osd_a osd_b : ref) : heap :=
  set_hostname osd_b (CephOsd.hostname (deref σ osd_a))
    (set_hostname osd_a (CephOsd.hostname (deref σ osd_b)) σ).

(** The bucket of tier [ty] at host [i] after swapping [a], held at host
    [ia] in tier [ta], with [b], held at host [ib] in tier [tb]. *)
Definition swapped_bucket (a b : ref) (ia ib : nat) (ta tb : string)
    (i : nat) (ty : string) (l : list ref) : list ref :=
  let l1 := if decide (ia = i ∧ ta = ty) then drop_first a l else l in
  let l2 := if decide (ib = i ∧ tb = ty) then drop_first b l1 else l1 in
  let l3 := if decide (ia = i ∧ tb = ty) then l2 ++ [b] else l2 in
  if decide (ib = i ∧ ta = ty) then l3 ++ [a] else l3.

(** A device [r] is held at host [i] in tier [ty]. *)
Definition held_at (c : Cluster) (r : ref) (i : nat) (ty : string) : Prop :=
  ∃ l, bucket_at (hosts c) i ty = Some l ∧ r ∈ l.

Lemma held_at_fields (c : Cluster) (r : ref) (i : nat) (ty : string) :
  wf c → held_at c r i ty →
  ∃ h, hosts c !! i = Some h
       ∧ CephOsd.hostname (deref (osds c) r) = CephHost.hostname h
       ∧ CephOsd.bluestore_bdev_type (deref (osds c) r) = ty
       ∧ is_Some (osds c !! r)
       ∧ find_host (hosts c) (CephOsd.hostname (deref (osds c) r)) = Ok i.
Proof.
  intros (Hids & Hnames & Hkeys & Hnd & Hvalid & Hplaced) (l & Hl & Hr).
  destruct (placed_at _ _ _ _ _ _ Hplaced Hl Hr) as (h & Hi & Hn & Ht).
  exists h. repeat split; try done.
  - apply lookup_lt_is_Some. rewrite Forall_forall in Hvalid. apply Hvalid.
    by eapply bucket_at_subset.
  - rewrite Hn. by apply find_host_lookup.
Qed.

Lemma held_at_unique (c : Cluster) (r : ref) (i j : nat) (ty ty' : string) :
  wf c → held_at c r i ty → held_at c r j ty' → i = j ∧ ty = ty'.
Proof.
  intros (_ & _ & _ & Hnd & _) (l & Hl & Hr) (l' & Hl' & Hr').
  destruct (decide (i = j ∧ ty = ty')) as [|Hne]; [done|].
  exfalso. by eapply (buckets_disjoint _ _ _ _ _ _ _ r Hnd Hl Hl' Hne).
Qed.

Definition alter_bucket (i : nat) (ty : string) (f : list ref → list ref)
    (hs : list CephHost.t) : list CephHost.t :=
  set_bucket i ty (f (default [] (bucket_at hs i ty))) hs.

Lemma bucket_at_alter_bucket (i j : nat) (ty ty' : string) (f : list ref → list ref)
    (hs : list CephHost.t) :
  bucket_at (alter_bucket i ty f hs) j ty'
  = (if decide (i = j ∧ ty = ty') then f else (λ l, l)) <$> bucket_at hs j ty'.
Proof.
  unfold alter_bucket. rewrite bucket_at_set_bucket. case_decide as Hd.
  - destruct Hd as [<- <-]. by destruct (bucket_at hs i ty).
  - by destruct (bucket_at hs j ty').
Qed.

Lemma shape_alter_bucket (i : nat) (ty : string) (f : list ref → list ref)
    (hs : list CephHost.t) :
  shape (alter_bucket i ty f hs) = shape hs.
Proof. apply shape_set_bucket. Qed.

Lemma alter_bucket_perm (hs : list CephHost.t) (i : nat) (ty : string)
    (f : list ref → list ref) (l : list ref) :
  bucket_at hs i ty = Some l →
  ∃ rest, hosts_osds hs ≡ₚ l ++ rest ∧ hosts_osds (alter_bucket i ty f hs) ≡ₚ f l ++ rest.
Proof.
  intros Hl. destruct (set_bucket_perm _ _ _ _ Hl) as (rest & Hp & Hp').
  exists rest. split; [done|]. unfold alter_bucket. rewrite Hl. simpl. apply Hp'.
Qed.

(** The hosts after the four bucket updates of [swap_osd]. *)
Definition swap_hosts (a b : ref) (ia ib : nat) (ta tb : string)
    (hs : list CephHost.t) : list CephHost.t :=
  alter_bucket ib ta (λ l, l ++ [a])
    (alter_bucket ia tb (λ l, l ++ [b])
       (alter_bucket ib tb (drop_first b)
          (alter_bucket ia ta (drop_first a) hs))).

Lemma bucket_at_swap_hosts (a b : ref) (ia ib : nat) (ta tb : string)
    (hs : list CephHost.t) (i : nat) (ty : string) :
  bucket_at (swap_hosts a b ia ib ta tb hs) i ty
  = swapped_bucket a b ia ib ta tb i ty <$> bucket_at hs i ty.
Proof.
  unfold swap_hosts, swapped_bucket. rewrite !bucket_at_alter_bucket.
  destruct (bucket_at hs i ty) as [l|]; simpl; [|done].
  repeat case_decide; done.
Qed.

Lemma shape_swap_hosts (a b : ref) (ia ib : nat) (ta tb : string) (hs : list CephHost.t) :
  shape (swap_hosts a b ia ib ta tb hs) = shape hs.
Proof. unfold swap_hosts. by rewrite !shape_alter_bucket. Qed.

Lemma bucket_remove_alter (σ : heap) (hs : list CephHost.t) (i : nat) (ty : string)
    (x : ref) (l : list ref) :
  NoDup σ → is_Some (σ !! x) → bucket_at hs i ty = Some l → x ∈ l →
  bucket_remove σ i ty x hs = Ok (alter_bucket i ty (drop_first x) hs).
Proof.
  intros Hnd Hx Hl Hin. unfold bucket_remove, alter_bucket.
  rewrite (get_bucket_Some _ _ _ _ Hl). simpl.
  rewrite list_remove_drop_first by done. rewrite decide_True by done. simpl.
  by rewrite Hl.
Qed.

Lemma bucket_append_alter (hs : list CephHost.t) (i : nat) (ty : string) (x : ref) :
  is_Some (hs !! i) →
  bucket_append i ty x hs
  = if decide (is_Some (bucket_at hs i ty))
    then Ok (alter_bucket i ty (λ l, l ++ [x]) hs) else Raise (KeyError ty).
Proof.
  intros Hi. unfold bucket_append, alter_bucket.
  destruct (bucket_at hs i ty) as [l|] eqn:Hl.
  - rewrite (get_bucket_Some _ _ _ _ Hl). by rewrite decide_True by eauto.
  - rewrite get_bucket_None by done. rewrite decide_False; [done|]. by intros [? ?].
Qed.

Lemma alter_bucket_lookup_is_Some (hs : list CephHost.t) (i j : nat) (ty : string)
    (f : list ref → list ref) :
  is_Some (alter_bucket i ty f hs !! j) ↔ is_Some (hs !! j).
Proof.
  unfold alter_bucket, set_bucket. rewrite !lookup_lt_is_Some. by rewrite length_alter.
Qed.

Section swap_wf.
Context (c : Cluster) (a b : ref) (ia ib : nat) (ta tb : string).
Context (Hwf : wf c) (Ha : held_at c a ia ta) (Hb : held_at c b ib tb) (Hne : ia ≠ ib).

(** The outcome of [swap_osd] on devices held at distinct hosts. *)
Lemma swap_osd_unfold :
  swap_osd c a b
  = if decide (is_Some (bucket_at (hosts c) ia tb)) then
      if decide (is_Some (bucket_at (hosts c) ib ta)) then
        Ok (mkCluster (swap_hostnames (osds c) a b)
                      (swap_hosts a b ia ib ta tb (hosts c)))
      else Raise (KeyError ta)
    else Raise (KeyError tb).
Proof.
  destruct (held_at_fields _ _ _ _ Hwf Ha) as (ha & Hia & Hna & Hta & Hva & Hfa).
  destruct (held_at_fields _ _ _ _ Hwf Hb) as (hb & Hib & Hnb & Htb & Hvb & Hfb).
  destruct Ha as (la & Hla & Hina). destruct Hb as (lb & Hlb & Hinb).
  assert (NoDup (osds c)) as Hnd by (eapply NoDup_fmap_1; apply Hwf).
  unfold swap_osd. rewrite Hfa, Hfb. simpl. rewrite Hta, Htb.
  rewrite (bucket_remove_alter _ _ _ _ _ la) by done. simpl.
  rewrite (bucket_remove_alter _ _ _ _ _ lb); [|done..| |done].
  2:{ rewrite bucket_at_alter_bucket, decide_False by naive_solver. by rewrite Hlb. }
  simpl. rewrite bucket_append_alter.
  2:{ rewrite !alter_bucket_lookup_is_Some. eauto. }
  rewrite !bucket_at_alter_bucket.
  destruct (bucket_at (hosts c) ia tb) as [l3|] eqn:Hl3; simpl; [|done].
  rewrite bucket_append_alter.
  2:{ rewrite !alter_bucket_lookup_is_Some. eauto. }
  rewrite !bucket_at_alter_bucket.
  destruct (bucket_at (hosts c) ib ta) as [l4|] eqn:Hl4; simpl; done.
Qed.

Lemma swap_osd_Ok_inv (c' : Cluster) :
  swap_osd c a b = Ok c' →
  is_Some (bucket_at (hosts c) ia tb) ∧ is_Some (bucket_at (hosts c) ib ta)
  ∧ c' = mkCluster (swap_hostnames (osds c) a b) (swap_hosts a b ia ib ta tb (hosts c)).
Proof.
  rewrite swap_osd_unfold. repeat case_decide; try done. by intros [= <-].
Qed.

Lemma swap_osd_Ok_intro :
  is_Some (bucket_at (hosts c) ia tb) → is_Some (bucket_at (hosts c) ib ta) →
  swap_osd c a b
  = Ok (mkCluster (swap_hostnames (osds c) a b) (swap_hosts a b ia ib ta tb (hosts c))).
Proof. intros ? ?. rewrite swap_osd_unfold. by rewrite !decide_True. Qed.
End swap_wf.

(** *** The heap after a swap *)

Lemma set_hostname_length (r : ref) (name : string) (σ : heap) :
  length (set_hostname r name σ) = length σ.
Proof. apply length_alter. Qed.

Lemma deref_set_hostname (σ : heap) (r r' : ref) (name : string) :
  is_Some (σ !! r) →
  deref (set_hostname r name σ) r'
  = if decide (r = r') then CephOsd.with_hostname name (deref σ r') else deref σ r'.
Proof.
  intros [v Hv]. unfold deref, set_hostname. destruct (decide (r = r')) as [<-|Hd].
  - rewrite list_lookup_alter_eq, Hv. done.
  - by rewrite list_lookup_alter_ne.
Qed.

Lemma swap_hostnames_length (σ : heap) (a b : ref) :
  length (swap_hostnames σ a b) = length σ.
Proof. unfold swap_hostnames. by rewrite !set_hostname_length. Qed.

Lemma deref_swap_hostnames (σ : heap) (a b r : ref) :
  is_Some (σ !! a) → is_Some (σ !! b) → a ≠ b →
  deref (swap_hostnames σ a b) r
  = if decide (r = a) then CephOsd.with_hostname (CephOsd.hostname (deref σ b)) (deref σ a)
    else if decide (r = b) then CephOsd.with_hostname (CephOsd.hostname (deref σ a)) (deref σ b)
    else deref σ r.
Proof.
  intros Ha Hb Hab. unfold swap_hostnames.
  rewrite deref_set_hostname.
  2:{ apply lookup_lt_is_Some. rewrite set_hostname_length. by apply lookup_lt_is_Some. }
  rewrite deref_set_hostname by done.
  repeat case_decide; subst; try done.
Qed.

Lemma set_hostname_ids (r : ref) (name : string) (σ : heap) :
  CephOsd.id <$> set_hostname r name σ = CephOsd.id <$> σ.
Proof.
  unfold set_hostname. apply list_eq. intros i. rewrite !list_lookup_fmap.
  destruct (decide (r = i)) as [<-|].
  - rewrite list_lookup_alter_eq. by destruct (σ !! r).
  - by rewrite list_lookup_alter_ne.
Qed.

Lemma swap_hostnames_ids (σ : heap) (a b : ref) :
  CephOsd.id <$> swap_hostnames σ a b = CephOsd.id <$> σ.
Proof. unfold swap_hostnames. by rewrite !set_hostname_ids. Qed.

Lemma deref_alter_field {A : Type} (g : CephOsd.t → A) (f : CephOsd.t → CephOsd.t)
    (i r : ref) (σ : heap) :
  (∀ o, g (f o) = g o) → g (deref (alter f i σ) r) = g (deref σ r).
Proof.
  intros Hg. unfold deref. destruct (decide (i = r)) as [->|].
  - rewrite list_lookup_alter_eq. destruct (σ !! r); simpl; auto.
  - by rewrite list_lookup_alter_ne.
Qed.


Lemma deref_swap_hostnames_type (σ : heap) (a b r : ref) :
  CephOsd.bluestore_bdev_type (deref (swap_hostnames σ a b) r)
  = CephOsd.bluestore_bdev_type (deref σ r).
Proof. unfold swap_hostnames, set_hostname. by rewrite !deref_alter_field. Qed.

(** Exchanging the names back gives the heap back. *)
Lemma swap_hostnames_involutive (σ : heap) (a b : ref) :
  is_Some (σ !! a) → is_Some (σ !! b) → a ≠ b →
  swap_hostnames (swap_hostnames σ a b) a b = σ.
Proof.
  intros Ha Hb Hab.
  assert (is_Some (swap_hostnames σ a b !! a)) as Ha'.
  { apply lookup_lt_is_Some. rewrite swap_hostnames_length. by apply lookup_lt_is_Some. }
  assert (is_Some (swap_hostnames σ a b !! b)) as Hb'.
  { apply lookup_lt_is_Some. rewrite swap_hostnames_length. by apply lookup_lt_is_Some. }
  apply list_eq. intros r.
  destruct (σ !! r) as [v|] eqn:Hr.
  - assert (is_Some (swap_hostnames (swap_hostnames σ a b) a b !! r)) as [v' Hv'].
    { apply lookup_lt_is_Some. rewrite !swap_hostnames_length. apply lookup_lt_is_Some. eauto. }
    rewrite Hv'. f_equal.
    pose proof (deref_swap_hostnames (swap_hostnames σ a b) a b r Ha' Hb' Hab) as Hd.
    unfold deref at 1 in Hd. rewrite Hv' in Hd. simpl in Hd. rewrite Hd.
    rewrite !(deref_swap_hostnames σ a b) by done.
    rewrite (decide_True (P:=a = a)), (decide_False (P:=b = a)), (decide_True (P:=b = b)) by done.
    unfold deref. rewrite Hr. simpl.
    repeat case_decide; subst; simpl.
    + rewrite Hr. simpl. by destruct v.
    + rewrite Hr. simpl. by destruct v.
    + done.
  - apply lookup_ge_None in Hr. apply lookup_ge_None. by rewrite !swap_hostnames_length.
Qed.

Lemma elem_of_dict_get {V : Type} (k : string) (v : V) (d : dict V) :
  NoDup (dict_keys d) → (k, v) ∈ d → dict_get k d = Some v.
Proof.
  unfold dict_keys. induction d as [|[k' v'] d IH]; simpl; [by intros _ ?%elem_of_nil|].
  rewrite NoDup_cons. intros [Hk' Hnd] [Heq|Hin]%elem_of_cons.
  - injection Heq as <- <-. by rewrite decide_True.
  - rewrite decide_False; [by apply IH|]. intros ->. apply Hk'.
    apply list_elem_of_fmap. by exists (k, v).
Qed.

Lemma placed_intro (σ : heap) (hs : list CephHost.t) :
  keys_nodup hs →
  (∀ i ty l r, bucket_at hs i ty = Some l → r ∈ l →
     ∃ h, hs !! i = Some h
          ∧ CephOsd.hostname (deref σ r) = CephHost.hostname h
          ∧ CephOsd.bluestore_bdev_type (deref σ r) = ty) →
  placed σ hs.
Proof.
  intros Hk Hp. unfold placed. apply Forall_lookup_2. intros i h Hi.
  apply Forall_forall. intros [ty l] Hin. apply Forall_forall. intros r Hr. simpl.
  assert (bucket_at hs i ty = Some l) as Hb.
  { unfold bucket_at. rewrite Hi. simpl. apply elem_of_dict_get; [|done].
    by apply (Forall_lookup_1 _ _ _ _ Hk Hi). }
  destruct (Hp _ _ _ _ Hb Hr) as (h' & Hi' & ? & ?). by simplify_eq.
Qed.

Lemma elem_of_drop_first (x r : ref) (l : list ref) :
  NoDup l → r ∈ drop_first x l ↔ r ∈ l ∧ r ≠ x.
Proof.
  induction l as [|y l IH]; simpl.
  - intros _. rewrite elem_of_nil. naive_solver.
  - rewrite NoDup_cons. intros [Hy Hnd]. case_decide as Hd.
    + subst y. rewrite elem_of_cons. split; [intros ?; split; [by right | by intros ->] | naive_solver].
    + rewrite !elem_of_cons, IH by done. naive_solver.
Qed.

Lemma elem_of_swapped_bucket (a b : ref) (ia ib : nat) (ta tb : string)
    (i : nat) (ty : string) (l : list ref) (r : ref) :
  NoDup l → a ≠ b → ia ≠ ib →
  (a ∈ l → ia = i ∧ ta = ty) → (b ∈ l → ib = i ∧ tb = ty) →
  r ∈ swapped_bucket a b ia ib ta tb i ty l
  ↔ (r ∈ l ∧ r ≠ a ∧ r ≠ b) ∨ (r = b ∧ ia = i ∧ tb = ty) ∨ (r = a ∧ ib = i ∧ ta = ty).
Proof.
  intros Hnd Hab Hi Ha Hb. unfold swapped_bucket.
  repeat case_decide; rewrite ?elem_of_app, ?list_elem_of_singleton, ?elem_of_drop_first by done;
    naive_solver.
Qed.

Lemma swap_hosts_perm (a b : ref) (ia ib : nat) (ta tb : string)
    (hs : list CephHost.t) (la lb : list ref) :
  ia ≠ ib →
  bucket_at hs ia ta = Some la → a ∈ la →
  bucket_at hs ib tb = Some lb → b ∈ lb →
  is_Some (bucket_at hs ia tb) → is_Some (bucket_at hs ib ta) →
  hosts_osds (swap_hosts a b ia ib ta tb hs) ≡ₚ hosts_osds hs.
Proof.
  intros Hne Hla Ha Hlb Hb [l3 Hl3] [l4 Hl4]. unfold swap_hosts.
  set (hs1 := alter_bucket ia ta (drop_first a) hs).
  set (hs2 := alter_bucket ib tb (drop_first b) hs1).
  set (hs3 := alter_bucket ia tb (λ l, l ++ [b]) hs2).
  destruct (alter_bucket_perm hs ia ta (drop_first a) la Hla) as (r1 & Hp1 & Hp1').
  assert (bucket_at hs1 ib tb = Some lb) as Hlb1.
  { unfold hs1. rewrite bucket_at_alter_bucket, decide_False by naive_solver. by rewrite Hlb. }
  destruct (alter_bucket_perm hs1 ib tb (drop_first b) lb Hlb1) as (r2 & Hp2 & Hp2').
  assert (is_Some (bucket_at hs2 ia tb)) as [l3' Hl3'].
  { unfold hs2, hs1. rewrite !bucket_at_alter_bucket, Hl3. simpl. eauto. }
  destruct (alter_bucket_perm hs2 ia tb (λ l, l ++ [b]) l3' Hl3') as (r3 & Hp3 & Hp3').
  assert (is_Some (bucket_at hs3 ib ta)) as [l4' Hl4'].
  { unfold hs3, hs2, hs1. rewrite !bucket_at_alter_bucket, Hl4. simpl. eauto. }
  destruct (alter_bucket_perm hs3 ib ta (λ l, l ++ [a]) l4' Hl4') as (r4 & Hp4 & Hp4').
  fold hs1 in Hp1'. fold hs2 in Hp2'. fold hs3 in Hp3'.
  assert (∀ (x : ref) l r, (l ++ [x]) ++ r ≡ₚ x :: l ++ r) as Hsnoc.
  { intros x l r. by rewrite (Permutation_app_comm l [x]). }
  assert (hosts_osds hs ≡ₚ a :: hosts_osds hs1) as E1.
  { rewrite Hp1, Hp1', (drop_first_perm a la Ha) at 1. done. }
  assert (hosts_osds hs1 ≡ₚ b :: hosts_osds hs2) as E2.
  { rewrite Hp2, Hp2', (drop_first_perm b lb Hb) at 1. done. }
  assert (hosts_osds hs3 ≡ₚ b :: hosts_osds hs2) as E3.
  { by rewrite Hp3', Hp3, Hsnoc. }
  rewrite Hp4', Hsnoc, <- Hp4, E3, E1, E2. done.
Qed.

Lemma shape_hostnames (hs hs' : list CephHost.t) :
  shape hs = shape hs' → CephHost.hostname <$> hs = CephHost.hostname <$> hs'.
Proof.
  intros Hs. apply (f_equal (fmap fst)) in Hs. unfold shape in Hs.
  rewrite <- !list_fmap_compose in Hs. done.
Qed.

Section swap_result.
Context (c c' : Cluster) (a b : ref) (ia ib : nat) (ta tb : string).
Context (Hwf : wf c) (Ha : held_at c a ia ta) (Hb : held_at c b ib tb) (Hne : ia ≠ ib).
Context (Hswap : swap_osd c a b = Ok c').

Lemma swap_osd_distinct : a ≠ b.
Proof. intros ->. by destruct (held_at_unique _ _ _ _ _ _ Hwf Ha Hb). Qed.

Lemma swap_osd_osds : osds c' = swap_hostnames (osds c) a b.
Proof. by destruct (swap_osd_Ok_inv _ _ _ _ _ _ _ Hwf Ha Hb Hne _ Hswap) as (_ & _ & ->). Qed.

Lemma swap_osd_hosts : hosts c' = swap_hosts a b ia ib ta tb (hosts c).
Proof. by destruct (swap_osd_Ok_inv _ _ _ _ _ _ _ Hwf Ha Hb Hne _ Hswap) as (_ & _ & ->). Qed.

Lemma swap_osd_shape : shape (hosts c') = shape (hosts c).
Proof. rewrite swap_osd_hosts. apply shape_swap_hosts. Qed.

Lemma swap_osd_bucket_at (i : nat) (ty : string) :
  bucket_at (hosts c') i ty
  = swapped_bucket a b ia ib ta tb i ty <$> bucket_at (hosts c) i ty.
Proof. rewrite swap_osd_hosts. apply bucket_at_swap_hosts. Qed.

Lemma swap_osd_hosts_osds : hosts_osds (hosts c') ≡ₚ hosts_osds (hosts c).
Proof.
  destruct (swap_osd_Ok_inv _ _ _ _ _ _ _ Hwf Ha Hb Hne _ Hswap) as (H3 & H4 & ->).
  destruct Ha as (la & Hla & Hina). destruct Hb as (lb & Hlb & Hinb). simpl.
  by eapply swap_hosts_perm.
Qed.

Lemma swap_osd_held_at (r : ref) (i : nat) (ty : string) :
  held_at c' r i ty
  ↔ (held_at c r i ty ∧ r ≠ a ∧ r ≠ b)
    ∨ (r = b ∧ ia = i ∧ tb = ty) ∨ (r = a ∧ ib = i ∧ ta = ty).
Proof.
  pose proof swap_osd_distinct as Hab.
  destruct (swap_osd_Ok_inv _ _ _ _ _ _ _ Hwf Ha Hb Hne _ Hswap) as ([l3 H3] & [l4 H4] & _).
  assert (∀ l, bucket_at (hosts c) i ty = Some l →
    r ∈ swapped_bucket a b ia ib ta tb i ty l
    ↔ (r ∈ l ∧ r ≠ a ∧ r ≠ b) ∨ (r = b ∧ ia = i ∧ tb = ty) ∨ (r = a ∧ ib = i ∧ ta = ty)) as Hel.
  { intros l Hl. apply elem_of_swapped_bucket; [|done..| |].
    - eapply bucket_nodup; [apply Hwf | done].
    - intros Hin. eapply (held_at_unique c a); [done..|]. by exists l.
    - intros Hin. eapply (held_at_unique c b); [done..|]. by exists l. }
  unfold held_at at 1. setoid_rewrite swap_osd_bucket_at. split.
  - intros (l' & Hl' & Hr).
    destruct (bucket_at (hosts c) i ty) as [l|] eqn:Hl; simplify_eq/=.
    apply (Hel l eq_refl) in Hr. destruct Hr as [(? & ? & ?)|Hr]; [|by right].
    left. split; [by exists l | done].
  - intros [((l & Hl & Hr) & ? & ?)|[(-> & <- & <-)|(-> & <- & <-)]].
    + exists (swapped_bucket a b ia ib ta tb i ty l). rewrite Hl. split; [done|].
      apply (Hel l Hl). by left.
    + exists (swapped_bucket a b ia ib ta tb ia tb l3). rewrite H3. split; [done|].
      apply (Hel l3 H3). right. by left.
    + exists (swapped_bucket a b ia ib ta tb ib ta l4). rewrite H4. split; [done|].
      apply (Hel l4 H4). right. by right.
Qed.

Lemma swap_osd_wf : wf c'.
Proof.
  pose proof swap_osd_distinct as Hab.
  destruct (held_at_fields _ _ _ _ Hwf Ha) as (ha & Hia & Hna & Hta & Hva & _).
  destruct (held_at_fields _ _ _ _ Hwf Hb) as (hb & Hib & Hnb & Htb & Hvb & _).
  pose proof Hwf as (Hids & Hnames & Hkeys & Hnd & Hvalid & Hplaced).
  assert (keys_nodup (hosts c')) as Hkeys'.
  { eapply keys_nodup_shape; [symmetry; apply swap_osd_shape | done]. }
  repeat split.
  - by rewrite swap_osd_osds, swap_hostnames_ids.
  - by rewrite (shape_hostnames _ _ swap_osd_shape).
  - done.
  - by rewrite swap_osd_hosts_osds.
  - rewrite swap_osd_hosts_osds, swap_osd_osds, swap_hostnames_length. done.
  - apply placed_intro; [done|]. intros i ty l' r Hl' Hr.
    assert (held_at c' r i ty) as Hheld by by exists l'.
    rewrite swap_osd_osds, deref_swap_hostnames_type.
    rewrite deref_swap_hostnames by done.
    apply swap_osd_held_at in Hheld as [(Hh & ? & ?)|[(-> & <- & <-)|(-> & <- & <-)]].
    + rewrite !decide_False by done.
      destruct (held_at_fields _ _ _ _ Hwf Hh) as (h & Hi & Hn & Ht & _).
      destruct (shape_lookup _ _ _ _ (eq_sym swap_osd_shape) Hi) as (h' & Hi' & Hn' & _).
      exists h'. rewrite Hn'. done.
    + rewrite decide_False, decide_True by done.
      destruct (shape_lookup _ _ _ _ (eq_sym swap_osd_shape) Hia) as (h' & Hi' & Hn' & _).
      exists h'. rewrite Hn'. simpl. done.
    + rewrite decide_True by done.
      destruct (shape_lookup _ _ _ _ (eq_sym swap_osd_shape) Hib) as (h' & Hi' & Hn' & _).
      exists h'. rewrite Hn'. simpl. done.
Qed.
End swap_result.

(** *** Swapping twice *)

Definition move_to_end (x : ref) (l : list ref) : list ref := drop_first x l ++ [x].

(** The hosts after a swap of [a] and [b] and its undoing. *)
Definition undone_hosts (a b : ref) (ia ib : nat) (ta tb : string)
    (hs : list CephHost.t) : list CephHost.t :=
  alter_bucket ib tb (move_to_end b) (alter_bucket ia ta (move_to_end a) hs).

Lemma move_to_end_perm (x : ref) (l : list ref) : x ∈ l → move_to_end x l ≡ₚ l.
Proof.
  intros Hx. unfold move_to_end. rewrite (drop_first_perm x l Hx) at 2.
  by rewrite Permutation_app_comm.
Qed.

Lemma move_to_end_last (x : ref) (l : list ref) :
  NoDup (l ++ [x]) → move_to_end x (l ++ [x]) = l ++ [x].
Proof. apply drop_first_last. Qed.

Ltac decide_all :=
  repeat match goal with
  | |- context [decide ?P] =>
      first [ rewrite (decide_True (P:=P)) by (split; congruence)
            | rewrite (decide_False (P:=P)) by (intros [? ?]; congruence) ]
  end.

Lemma swapped_bucket_twice (a b : ref) (ia ib : nat) (ta tb : string)
    (i : nat) (ty : string) (l : list ref) :
  NoDup l → a ≠ b → ia ≠ ib →
  (a ∈ l → ia = i ∧ ta = ty) → (b ∈ l → ib = i ∧ tb = ty) →
  (ia = i ∧ ta = ty → a ∈ l) → (ib = i ∧ tb = ty → b ∈ l) →
  swapped_bucket a b ib ia ta tb i ty (swapped_bucket a b ia ib ta tb i ty l)
  = (if decide (ib = i ∧ tb = ty) then move_to_end b else (λ l, l))
      ((if decide (ia = i ∧ ta = ty) then move_to_end a else (λ l, l)) l).
Proof.
  intros Hnd Hab Hi Ha Hb Ha' Hb'. unfold swapped_bucket, move_to_end.
  assert (a ∉ drop_first a l) as Hna by (rewrite elem_of_drop_first by done; naive_solver).
  assert (b ∉ drop_first b l) as Hnb by (rewrite elem_of_drop_first by done; naive_solver).
  destruct (decide (ia = i)) as [Eia|Eia], (decide (ib = i)) as [Eib|Eib];
    [congruence| | |];
  destruct (decide (ta = ty)) as [Eta|Eta], (decide (tb = ty)) as [Etb|Etb];
  decide_all.
  all: try done.
  all: rewrite drop_first_snoc; [done|].
  all: rewrite ?elem_of_drop_first by done; intros Hin.
  - destruct Hin as [Hin _]. apply Hb in Hin. naive_solver.
  - apply Hb in Hin. naive_solver.
  - destruct Hin as [Hin _]. apply Ha in Hin. naive_solver.
  - apply Ha in Hin. naive_solver.
Qed.

Section swap_twice.
Context (c c1 : Cluster) (a b : ref) (ia ib : nat) (ta tb : string).
Context (Hwf : wf c) (Ha : held_at c a ia ta) (Hb : held_at c b ib tb) (Hne : ia ≠ ib).
Context (Hswap : swap_osd c a b = Ok c1).

Lemma swap_osd_twice :
  swap_osd c1 a b = Ok (mkCluster (osds c) (undone_hosts a b ia ib ta tb (hosts c))).
Proof.
  pose proof (swap_osd_distinct _ _ _ _ _ _ _ _ Hwf Ha Hb Hne Hswap) as Hab.
  pose proof (swap_osd_wf _ _ _ _ _ _ _ _ Hwf Ha Hb Hne Hswap) as Hwf1.
  pose proof (swap_osd_held_at _ _ _ _ _ _ _ _ Hwf Ha Hb Hne Hswap) as Hheld.
  assert (held_at c1 a ib ta) as Ha1 by (apply Hheld; right; by right).
  assert (held_at c1 b ia tb) as Hb1 by (apply Hheld; right; by left).
  destruct (held_at_fields _ _ _ _ Hwf Ha) as (_ & _ & _ & _ & Hva & _).
  destruct (held_at_fields _ _ _ _ Hwf Hb) as (_ & _ & _ & _ & Hvb & _).
  pose proof (swap_osd_bucket_at _ _ _ _ _ _ _ _ Hwf Ha Hb Hne Hswap) as Hbk.
  rewrite (swap_osd_Ok_intro c1 a b ib ia ta tb Hwf1 Ha1 Hb1 (not_eq_sym Hne)).
  2:{ rewrite Hbk. destruct Hb as (lb & -> & _). simpl. eauto. }
  2:{ rewrite Hbk. destruct Ha as (la & -> & _). simpl. eauto. }
  f_equal. f_equal.
  - rewrite (swap_osd_osds _ _ _ _ _ _ _ _ Hwf Ha Hb Hne Hswap).
    by apply swap_hostnames_involutive.
  - apply hosts_ext.
    + unfold undone_hosts. rewrite shape_swap_hosts, !shape_alter_bucket.
      by apply (swap_osd_shape _ _ _ _ _ _ _ _ Hwf Ha Hb Hne Hswap).
    + eapply keys_nodup_shape; [|apply Hwf1]. by rewrite shape_swap_hosts.
    + intros i ty. rewrite bucket_at_swap_hosts, Hbk. unfold undone_hosts.
      rewrite !bucket_at_alter_bucket.
      destruct (bucket_at (hosts c) i ty) as [l|] eqn:Hl; simpl; [|done]. f_equal.
      apply swapped_bucket_twice; [|done..| | | |].
      * eapply bucket_nodup; [apply Hwf | done].
      * intros Hin. eapply (held_at_unique c a); [done..|]. by exists l.
      * intros Hin. eapply (held_at_unique c b); [done..|]. by exists l.
      * intros [<- <-]. destruct Ha as (la & Hla & ?). by simplify_eq.
      * intros [<- <-]. destruct Hb as (lb & Hlb & ?). by simplify_eq.
Qed.
End swap_twice.

(** *** The topology that the builder makes *)

Lemma dict_upsert_cases {V : Type} (f : V → V) (k : string) (v0 : V) (d : dict V) :
  (∃ d1 v d2, d = d1 ++ (k, v) :: d2 ∧ k ∉ dict_keys d1
              ∧ dict_alter f k (dict_setdefault k v0 d) = d1 ++ (k, f v) :: d2)
  ∨ (k ∉ dict_keys d ∧ dict_alter f k (dict_setdefault k v0 d) = d ++ [(k, f v0)]).
Proof.
  unfold dict_setdefault, dict_keys. induction d as [|[k' v'] d IH]; simpl.
  - right. split; [apply not_elem_of_nil|]. by rewrite decide_True.
  - destruct (decide (k' = k)) as [->|Hk].
    + left. exists [], v', d. simpl. rewrite decide_True by done.
      split; [done|]. split; [apply not_elem_of_nil | done].
    + destruct IH as [(d1 & v & d2 & -> & Hd1 & Heq)|[Hd Heq]].
      * left. exists ((k', v') :: d1), v, d2. split; [done|]. split.
        { simpl. rewrite not_elem_of_cons. split; [congruence | done]. }
        destruct (dict_get k (d1 ++ (k, v) :: d2)); simpl in *;
          rewrite decide_False by done; by rewrite Heq.
      * right. split; [rewrite not_elem_of_cons; split; [congruence | done]|].
        destruct (dict_get k d); simpl in *; rewrite decide_False by done; by rewrite Heq.
Qed.

(** The state of the builder's loop: host names are unique, and so are the
    tiers of a host; no bucket is empty; a device is where its fields say. *)
Definition grouped_ok (σ : heap) (acc : dict (dict (list ref))) : Prop :=
  NoDup (dict_keys acc)
  ∧ Forall (λ e : string * dict (list ref),
      NoDup (dict_keys e.2)
      ∧ Forall (λ e' : string * list ref,
          e'.2 ≠ []
          ∧ Forall (λ r, CephOsd.hostname (deref σ r) = e.1
                         ∧ CephOsd.bluestore_bdev_type (deref σ r) = e'.1) e'.2) e.2) acc.

Definition grouped_refs (acc : dict (dict (list ref))) : list ref :=
  concat ((λ e : string * dict (list ref), concat (dict_values e.2)) <$> acc).

Lemma dict_keys_app {V : Type} (d1 d2 : dict V) :
  dict_keys (d1 ++ d2) = dict_keys d1 ++ dict_keys d2.
Proof. unfold dict_keys. apply fmap_app. Qed.

Lemma group_step_ok (σ : heap) (acc : dict (dict (list ref))) (r : ref) :
  grouped_ok σ acc →
  grouped_ok σ (group_step σ acc r) ∧ grouped_refs (group_step σ acc r) ≡ₚ grouped_refs acc ++ [r].
Proof.
  intros [Hk Hall]. unfold group_step.
  set (hn := CephOsd.hostname (deref σ r)). set (ty := CephOsd.bluestore_bdev_type (deref σ r)).
  assert (∀ d : dict (list ref),
    NoDup (dict_keys d)
    ∧ Forall (λ e' : string * list ref,
        e'.2 ≠ [] ∧ Forall (λ r, CephOsd.hostname (deref σ r) = hn
                         ∧ CephOsd.bluestore_bdev_type (deref σ r) = e'.1) e'.2) d
    ∨ d = [] →
    (NoDup (dict_keys (dict_append ty r d))
     ∧ Forall (λ e' : string * list ref,
        e'.2 ≠ [] ∧ Forall (λ r, CephOsd.hostname (deref σ r) = hn
                         ∧ CephOsd.bluestore_bdev_type (deref σ r) = e'.1) e'.2)
        (dict_append ty r d))
    ∧ concat (dict_values (dict_append ty r d)) ≡ₚ concat (dict_values d) ++ [r]) as Hinner.
  { intros d Hd.
    assert (NoDup (dict_keys d)
      ∧ Forall (λ e' : string * list ref,
        e'.2 ≠ [] ∧ Forall (λ r, CephOsd.hostname (deref σ r) = hn
                         ∧ CephOsd.bluestore_bdev_type (deref σ r) = e'.1) e'.2) d) as [Hkd Hd'].
    { destruct Hd as [?| ->]; [done|]. split; [apply NoDup_nil_2 | apply Forall_nil_2]. }
    clear Hd. unfold dict_append.
    destruct (dict_upsert_cases (λ l, l ++ [r]) ty [] d)
      as [(d1 & l & d2 & -> & Hd1 & ->)|[Hn ->]].
    - rewrite !dict_keys_app in *. simpl in *. split; [split; [done|]|].
      + apply Forall_app in Hd' as [H1 H2]. apply Forall_cons in H2 as [[Hl1 Hl2] H2].
        apply Forall_app. split; [done|]. apply Forall_cons. split; [|done]. simpl in *.
        split; [by destruct l|]. apply Forall_app. split; [done|].
        apply Forall_singleton. done.
      + unfold dict_values. rewrite !fmap_app, !concat_app. simpl.
        rewrite <- !app_assoc. f_equiv. f_equiv. apply Permutation_app_comm.
    - rewrite dict_keys_app. simpl. split; [split|].
      + apply NoDup_app. split; [done|]. split; [|apply NoDup_singleton].
        intros x Hx ->%list_elem_of_singleton. done.
      + apply Forall_app. split; [done|]. apply Forall_singleton. simpl.
        split; [done|]. apply Forall_singleton. done.
      + unfold dict_values. rewrite fmap_app, concat_app. simpl. by rewrite ?app_nil_r. }
  destruct (dict_upsert_cases (dict_append ty r) hn [] acc)
    as [(a1 & d & a2 & -> & Ha1 & ->)|[Hn ->]].
  - apply Forall_app in Hall as [H1 H2]. apply Forall_cons in H2 as [[Hd1 Hd2] H2].
    simpl in *. destruct (Hinner d (or_introl (conj Hd1 Hd2))) as [[Hi1 Hi2] Hi3].
    split; [split|].
    + rewrite !dict_keys_app in *. done.
    + apply Forall_app. split; [done|]. apply Forall_cons. split; [|done]. done.
    + unfold grouped_refs. rewrite !fmap_app, !concat_app. simpl.
      rewrite Hi3. rewrite <- !app_assoc. f_equiv. f_equiv. apply Permutation_app_comm.
  - destruct (Hinner [] (or_intror eq_refl)) as [[Hi1 Hi2] Hi3].
    split; [split|].
    + rewrite dict_keys_app. simpl. apply NoDup_app. split; [done|].
      split; [|apply NoDup_singleton]. intros x Hx ->%list_elem_of_singleton. done.
    + apply Forall_app. split; [done|]. apply Forall_singleton. done.
    + unfold grouped_refs. rewrite fmap_app, concat_app. simpl.
      rewrite Hi3. simpl. by rewrite ?app_nil_r.
Qed.

Lemma group_loop_ok (σ : heap) (refs : list ref) (acc : dict (dict (list ref))) :
  grouped_ok σ acc →
  grouped_ok σ (foldl (group_step σ) acc refs)
  ∧ grouped_refs (foldl (group_step σ) acc refs) ≡ₚ grouped_refs acc ++ refs.
Proof.
  revert acc. induction refs as [|r refs IH]; intros acc Hok; simpl.
  - by rewrite app_nil_r.
  - destruct (group_step_ok σ acc r Hok) as [Hok' Hp].
    destruct (IH _ Hok') as [Hok'' Hp']. split; [done|].
    rewrite Hp', Hp. by rewrite <- app_assoc.
Qed.

Definition no_empty_bucket (hs : list CephHost.t) : Prop :=
  Forall (λ h, Forall (λ e : string * list ref, e.2 ≠ []) (CephHost.osd_by_type h)) hs.

Lemma group_osds_grouped (devices : list CephOsd.t) :
  let grouped := foldl (group_step devices) [] (seq 0 (length devices)) in
  grouped_ok devices grouped ∧ grouped_refs grouped ≡ₚ seq 0 (length devices).
Proof.
  simpl. apply (group_loop_ok devices (seq 0 (length devices)) []).
  split; [apply NoDup_nil_2 | apply Forall_nil_2].
Qed.

Lemma group_osds_hosts_osds (devices : list CephOsd.t) :
  hosts_osds (hosts (group_osds_by_host_and_type devices)) ≡ₚ seq 0 (length devices).
Proof.
  destruct (group_osds_grouped devices) as [_ Hp]. simpl in Hp. rewrite <- Hp.
  unfold group_osds_by_host_and_type, hosts_osds, grouped_refs. simpl.
  rewrite <- list_fmap_compose.
  generalize (foldl (group_step devices) [] (seq 0 (length devices))). intros acc.
  induction acc as [|[hn d] acc IH]; simpl; [done|]. by rewrite IH.
Qed.

Lemma group_osds_no_empty_bucket (devices : list CephOsd.t) :
  no_empty_bucket (hosts (group_osds_by_host_and_type devices)).
Proof.
  destruct (group_osds_grouped devices) as [[_ Hall] _]. simpl in Hall.
  unfold group_osds_by_host_and_type, no_empty_bucket. simpl.
  apply Forall_fmap. eapply Forall_impl; [apply Hall|].
  intros [hn d] [_ Hd]. simpl in *. eapply Forall_impl; [apply Hd|]. by intros e [? _].
Qed.

Lemma group_osds_wf (devices : list CephOsd.t) :
  NoDup (CephOsd.id <$> devices) → wf (group_osds_by_host_and_type devices).
Proof.
  intros Hids. pose proof (group_osds_hosts_osds devices) as Hperm.
  destruct (group_osds_grouped devices) as [[Hk Hall] _]. simpl in Hk, Hall.
  unfold wf. split; [done|]. split; [|split; [|split; [|split]]].
  - unfold group_osds_by_host_and_type. simpl. rewrite <- list_fmap_compose.
    unfold dict_keys in Hk. erewrite list_fmap_ext; [apply Hk|]. by intros ? [? ?].
  - unfold group_osds_by_host_and_type, keys_nodup. simpl.
    apply Forall_fmap. eapply Forall_impl; [apply Hall|]. by intros [hn d] [? _].
  - rewrite Hperm. apply NoDup_seq.
  - rewrite Hperm. apply Forall_forall. intros r Hr%elem_of_seq. simpl. lia.
  - unfold group_osds_by_host_and_type, placed. simpl.
    apply Forall_fmap. eapply Forall_impl; [apply Hall|].
    intros [hn d] [_ Hd]. simpl in *. eapply Forall_impl; [apply Hd|]. by intros e [_ ?].
Qed.

(** *** Sums and permutations *)

Lemma sum_Z_acc (l : list Z) (z : Z) : foldl Z.add z l = z + sum_Z l.
Proof.
  unfold sum_Z. revert z. induction l as [|x l IH]; intros z; simpl; [lia|].
  rewrite (IH (z + x)), (IH (0 + x)). lia.
Qed.

Lemma sum_Z_cons (x : Z) (l : list Z) : sum_Z (x :: l) = x + sum_Z l.
Proof. unfold sum_Z at 1. simpl. by rewrite sum_Z_acc. Qed.

Lemma sum_Z_app (l k : list Z) : sum_Z (l ++ k) = sum_Z l + sum_Z k.
Proof.
  induction l as [|x l IH]; simpl; [done|]. rewrite !sum_Z_cons, IH. lia.
Qed.




(** *** The devices of one host *)




Section swap_hosts_exchange.
Context (c c' : Cluster) (a b : ref) (ia ib : nat) (ta tb : string).
Context (Hwf : wf c) (Ha : held_at c a ia ta) (Hb : held_at c b ib tb) (Hne : ia ≠ ib).
Context (Hswap : swap_osd c a b = Ok c').




End swap_hosts_exchange.

(** *** The sample of a tier, bucket by bucket *)

(** Every bucket of the cluster, host after host. *)
Definition all_buckets (c : Cluster) : list (string * list ref) :=
  concat (CephHost.osd_by_type <$> hosts c).

(** The floored totals of the buckets keyed [ty]: one entry for every host
    that has such a bucket, empty or not. *)
Definition bucket_sample (c : Cluster) (ty : string) : list Z :=
  (λ e : string * list ref, bucket_total (osds c) e.2)
    <$> filter (λ e : string * list ref, e.1 = ty) (all_buckets c).

(** The floored totals of the hosts that hold at least one device of tier
    [ty]. *)
Definition nonempty_sample (c : Cluster) (ty : string) : list Z :=
  (λ e : string * list ref, bucket_total (osds c) e.2)
    <$> filter (λ e : string * list ref, e.1 = ty ∧ e.2 ≠ []) (all_buckets c).

Lemma floored_totals_all_buckets (c : Cluster) :
  concat (floored_totals c)
  = (λ e : string * list ref, (e.1, bucket_total (osds c) e.2)) <$> all_buckets c.
Proof.
  unfold floored_totals, all_buckets. generalize (osds c). intros σ.
  induction (hosts c) as [|h hs IH]; [done|].
  cbn [fmap list_fmap concat]. rewrite fmap_app. f_equal; [|apply IH].
  apply list_fmap_ext. by intros ? [? ?].
Qed.

Lemma tier_sample_bucket_sample (c : Cluster) (ty : string) :
  tier_sample c ty = bucket_sample c ty.
Proof.
  unfold tier_sample, bucket_sample, entries_of. rewrite floored_totals_all_buckets.
  generalize (osds c). intros σ.
  induction (all_buckets c) as [|[k l] bs IH]; [done|].
  rewrite fmap_cons, !filter_cons. cbn [fst snd].
  case_decide; rewrite ?fmap_cons; cbn [snd]; [f_equal|]; apply IH.
Qed.

Lemma nonempty_sample_bucket_sample (c : Cluster) (ty : string) :
  no_empty_bucket (hosts c) → nonempty_sample c ty = bucket_sample c ty.
Proof.
  intros Hne. unfold nonempty_sample, bucket_sample. f_equal.
  assert (Forall (λ e : string * list ref, e.2 ≠ []) (all_buckets c)) as Hall.
  { unfold all_buckets, no_empty_bucket in *.
    induction Hne as [|h hs Hh _ IH]; simpl; [done|]. by apply Forall_app. }
  induction Hall as [|e bs He _ IH]; [done|].
  rewrite !filter_cons. repeat case_decide; try naive_solver; by rewrite IH.
Qed.

(** Decides a closed decidable proposition by evaluation. *)
Ltac by_compute :=
  match goal with |- ?P => apply (bool_decide_unpack P); vm_compute; exact I end.

(** *** The search as a log of candidates and a selection *)

(** What the search keeps of one evaluated pair: the two devices and, for
    every tier of the original metric in its order, the sample of the tier
    after the hypothetical swap. *)
Abbreviation visit := (ref * ref * list (list Z))%type.

Definition new_samples (tiers : list string) (c1 : Cluster) : result (list (list Z)) :=
  mapM_res (λ ty, dict_item ty (total_sizes_by_type c1)) tiers.

(** The innermost loop body without the float arithmetic: what it does to
    the cluster, and the pair it evaluates. *)
Definition log_swap (tiers : list string) (s : Cluster * list visit)
    (osd_a osd_b : ref) : result (Cluster * list visit) :=
  if same_size_and_type (osds s.1) osd_a osd_b then Ok s
  else
    c1 ← swap_osd s.1 osd_a osd_b;
    news ← new_samples tiers c1;
    c2 ← swap_osd c1 osd_a osd_b;
    Ok (c2, s.2 ++ [(osd_a, osd_b, news)]).

Definition log_pair (tiers : list string) (i : nat) (s : Cluster * list visit)
    (j : nat) : result (Cluster * list visit) :=
  match hosts s.1 !! i, hosts s.1 !! j with
  | Some host_a, Some host_b =>
      if decide (CephHost.hostname host_a = CephHost.hostname host_b) then Ok s
      else
        foldM (λ s osd_a, foldM (λ s osd_b, log_swap tiers s osd_a osd_b)
                                s (host_osds host_b))
              s (host_osds host_a)
  | _, _ => Ok s
  end.

(** The cluster as the search leaves it and the pairs it evaluated, in the
    order of evaluation. *)
Definition search_log (c : Cluster) : result (Cluster * list visit) :=
  let tiers := dict_keys (total_sizes_by_type c) in
  let positions := seq 0 (length (hosts c)) in
  foldM (λ s i, foldM (log_pair tiers i) s positions) (c, []) positions.

Section Select.
Context {F : Type} `{Dispersion F}.

(** The improvement of every tier, from the samples before and after. *)
Definition improvements (origs news : list (list Z)) : list F :=
  zip_with (λ o n, fsub (np_std o) (np_std n)) origs news.

(** The acceptance test of the search for a candidate with improvements
    [imps], when the best total so far is [highest]. *)
Definition accepts (imps : list F) (highest : option F) : bool :=
  fgt (fsum imps) fzero && exceeds (fsum imps) highest
  && forallb (λ imp, fge imp fzero) imps.

Definition select_step (origs : list (list Z)) (st : option (ref * ref) * option F)
    (v : visit) : option (ref * ref) * option F :=
  let imps := improvements origs v.2 in
  if accepts imps st.2 then (Some v.1, Some (fsum imps)) else st.

Definition select (origs : list (list Z)) (log : list visit)
    : option (ref * ref) * option F :=
  foldl (select_step origs) (None, None) log.

End Select.

(** Two fallible computations end alike: with related results or with the
    same exception. *)
Definition res_rel {A B : Type} (R : A → B → Prop) (x : result A) (y : result B) : Prop :=
  match x, y with
  | Ok a, Ok b => R a b
  | Raise e, Raise e' => e = e'
  | _, _ => False
  end.

Lemma foldM_rel {A A' B : Type} (R : A → A' → Prop)
    (f : A → B → result A) (f' : A' → B → result A') (l : list B) (a : A) (a' : A') :
  (∀ a a' x, R a a' → res_rel R (f a x) (f' a' x)) →
  R a a' → res_rel R (foldM f a l) (foldM f' a' l).
Proof.
  intros Hf. revert a a'. induction l as [|x l IH]; intros a a' HR; simpl; [done|].
  specialize (Hf a a' x HR). unfold res_rel in Hf.
  destruct (f a x) as [b|e], (f' a' x) as [b'|e']; simpl; try done.
  by apply IH.
Qed.

Lemma dict_keys_fmap {V W : Type} (g : V → W) (d : dict V) :
  dict_keys ((λ '(k, v), (k, g v)) <$> d) = dict_keys d.
Proof.
  unfold dict_keys. rewrite <- list_fmap_compose. apply list_fmap_ext. by intros ? [? ?].
Qed.

Lemma dict_append_keys_nodup {V : Type} (k : string) (x : V) (d : dict (list V)) :
  NoDup (dict_keys d) → NoDup (dict_keys (dict_append k x d)).
Proof.
  intros Hnd. unfold dict_append.
  destruct (dict_upsert_cases (λ l, l ++ [x]) k [] d)
    as [(d1 & l & d2 & -> & Hd1 & ->)|[Hn ->]].
  - by rewrite !dict_keys_app in *.
  - rewrite dict_keys_app. simpl. apply NoDup_app. split; [done|].
    split; [|apply NoDup_singleton]. intros y Hy ->%list_elem_of_singleton. done.
Qed.

Lemma total_sizes_by_type_keys_nodup (c : Cluster) :
  NoDup (dict_keys (total_sizes_by_type c)).
Proof.
  rewrite total_sizes_by_type_collect. unfold collect.
  assert (NoDup (dict_keys (@nil (string * list Z)))) as Hnil by apply NoDup_nil_2.
  revert Hnil. generalize (@nil (string * list Z)).
  induction (concat (floored_totals c)) as [|[k x] es IH]; intros acc Hacc; simpl; [done|].
  apply IH. by apply dict_append_keys_nodup.
Qed.

Lemma mapM_res_ext {A B : Type} (f g : A → result B) (l : list A) :
  (∀ x, f x = g x) → mapM_res f l = mapM_res g l.
Proof. intros Hfg. induction l as [|x l IH]; simpl; [done|]. by rewrite Hfg, IH. Qed.

Lemma dict_item_fmap {V W : Type} (g : V → W) (k : string) (d : dict V) :
  dict_item k ((λ '(k0, v), (k0, g v)) <$> d)
  = match dict_get k d with Some v => Ok (g v) | None => Raise (KeyError k) end.
Proof. unfold dict_item. rewrite dict_get_fmap. by destruct (dict_get k d). Qed.

Section Factor.
Context {F : Type} `{Dispersion F}.

Lemma improvements_per_type_samples (T0 T1 : dict (list Z)) :
  NoDup (dict_keys T0) →
  improvements_per_type
    ((λ '(osd_type, sizes), (osd_type, np_std sizes)) <$> T0)
    ((λ '(osd_type, sizes), (osd_type, np_std sizes)) <$> T1)
  = news ← mapM_res (λ ty, dict_item ty T1) (dict_keys T0);
    Ok (improvements (dict_values T0) news).
Proof.
  intros Hnd. unfold improvements_per_type. rewrite dict_keys_fmap.
  set (h := λ ty : string,
         match dict_get ty T0 with
         | Some o => match dict_get ty T1 with
                     | Some n => Ok (fsub (np_std o) (np_std n))
                     | None => Raise (KeyError ty)
                     end
         | None => @Raise F (KeyError ty)
         end).
  rewrite (mapM_res_ext _ h).
  2:{ intros ty. unfold h. rewrite !dict_item_fmap.
      destruct (dict_get ty T0), (dict_get ty T1); done. }
  assert (∀ d : dict (list Z), (∀ k v, (k, v) ∈ d → dict_get k T0 = Some v) →
    mapM_res h (dict_keys d)
    = news ← mapM_res (λ ty, dict_item ty T1) (dict_keys d);
      Ok (improvements (dict_values d) news)) as Hgen.
  { induction d as [|[k v] d IH]; intros Hd; [done|].
    cbn [dict_keys fmap list_fmap fst mapM_res].
    subst h. cbv beta. rewrite (Hd k v) by by left.
    unfold dict_keys in IH. rewrite IH by (intros; apply Hd; by right).
    unfold dict_item. destruct (dict_get k T1) as [n|]; [|done].
    cbn [mbind result_bind].
    match goal with |- context [mapM_res ?f ?l] => destruct (mapM_res f l) as [news|e] end;
      done. }
  apply Hgen. intros k v Hin. by apply elem_of_dict_get.
Qed.

End Factor.

Section Factor2.
Context {F : Type} `{Dispersion F}.

Definition search_rel (origs : list (list Z)) (s : search) (sl : Cluster * list visit) : Prop :=
  cluster s = sl.1
  ∧ (best_swap s, highest_spread_improvement s) = select origs sl.2.

Lemma select_snoc (origs : list (list Z)) (log : list visit) (v : visit) :
  select origs (log ++ [v]) = select_step origs (select origs log) v.
Proof. unfold select. by rewrite foldl_app. Qed.

Lemma try_swap_log (c0 : Cluster) (s : search) (sl : Cluster * list visit) (a b : ref) :
  search_rel (dict_values (total_sizes_by_type c0)) s sl →
  res_rel (search_rel (dict_values (total_sizes_by_type c0)))
    (try_swap (calculate_spread_by_type c0) s a b)
    (log_swap (dict_keys (total_sizes_by_type c0)) sl a b).
Proof.
  intros [Hc Hsel]. unfold try_swap, log_swap. rewrite Hc.
  destruct (same_size_and_type (osds sl.1) a b); [done|].
  destruct (swap_osd sl.1 a b) as [c1|e]; [|done]. cbn [mbind result_bind].
  unfold calculate_spread_by_type.
  rewrite improvements_per_type_samples by apply total_sizes_by_type_keys_nodup.
  unfold new_samples.
  destruct (mapM_res _ (dict_keys (total_sizes_by_type c0))) as [news|e]; [|done].
  cbn [mbind result_bind].
  destruct (swap_osd c1 a b) as [c2|e]; [|done]. cbn [mbind result_bind res_rel].
  unfold search_rel. cbn [fst snd]. rewrite select_snoc, <- Hsel.
  unfold select_step, accepts. cbn [fst snd].
  match goal with |- context [if ?b then _ else _] => destruct b end; done.
Qed.

Lemma visit_pair_log (c0 : Cluster) (i j : nat) (s : search) (sl : Cluster * list visit) :
  search_rel (dict_values (total_sizes_by_type c0)) s sl →
  res_rel (search_rel (dict_values (total_sizes_by_type c0)))
    (visit_pair (calculate_spread_by_type c0) i s j)
    (log_pair (dict_keys (total_sizes_by_type c0)) i sl j).
Proof.
  intros Hrel. unfold visit_pair, log_pair. rewrite (proj1 Hrel).
  destruct (hosts sl.1 !! i) as [host_a|]; [|done].
  destruct (hosts sl.1 !! j) as [host_b|]; [|done].
  case_decide; [done|].
  apply foldM_rel; [|done]. intros s1 sl1 osd_a Hrel1.
  apply foldM_rel; [|done]. intros s2 sl2 osd_b Hrel2.
  by apply try_swap_log.
Qed.

(** [find_best_swap] evaluates the pairs of [search_log] and returns the
    pair that [select] picks. *)
Lemma find_best_swap_search_log (c : Cluster) :
  find_best_swap c
  = '(c', log) ← search_log c;
    Ok (c', (select (dict_values (total_sizes_by_type c)) log).1).
Proof.
  unfold find_best_swap, search_log.
  pose proof (foldM_rel (search_rel (dict_values (total_sizes_by_type c)))
    (λ s i, foldM (visit_pair (calculate_spread_by_type c) i) s (seq 0 (length (hosts c))))
    (λ s i, foldM (log_pair (dict_keys (total_sizes_by_type c)) i) s (seq 0 (length (hosts c))))
    (seq 0 (length (hosts c))) (mkSearch c None None) (c, [])) as Hrel.
  unfold res_rel in Hrel.
  destruct (foldM _ (mkSearch c None None) _) as [s|e],
           (foldM _ (c, []) _) as [[c' log]|e']; cbn [mbind result_bind].
  - destruct Hrel as [Hc Hsel].
    + intros s1 sl1 i Hrel1. apply foldM_rel; [|done]. intros s2 sl2 j Hrel2.
      by apply visit_pair_log.
    + done.
    + simpl in *. by rewrite Hc, <- Hsel.
  - exfalso. apply Hrel; [|done]. intros s1 sl1 i Hrel1.
    apply foldM_rel; [|done]. intros s2 sl2 j Hrel2. by apply visit_pair_log.
  - exfalso. apply Hrel; [|done]. intros s1 sl1 i Hrel1.
    apply foldM_rel; [|done]. intros s2 sl2 j Hrel2. by apply visit_pair_log.
  - f_equal. apply Hrel; [|done]. intros s1 sl1 i Hrel1.
    apply foldM_rel; [|done]. intros s2 sl2 j Hrel2. by apply visit_pair_log.
Qed.

End Factor2.

(** *** The standard deviation in integers *)

(** [n] times the sum of squares minus the square of the sum: [n * n]
    times the population variance. *)
Definition nvar (xs : list Z) : Z :=
  Z.of_nat (length xs) * sum_Z ((λ x, x * x) <$> xs) - sum_Z xs * sum_Z xs.

Lemma sum_R_IZR (xs : list Z) : sum_R (IZR <$> xs) = IZR (sum_Z xs).
Proof.
  induction xs as [|x xs IH]; [done|].
  rewrite sum_Z_cons, plus_IZR, <- IH. done.
Qed.

Lemma sum_R_squares (xs : list Z) :
  sum_R ((λ x, IZR x * IZR x)%R <$> xs) = IZR (sum_Z ((λ x, x * x) <$> xs)).
Proof.
  induction xs as [|x xs IH]; [done|].
  rewrite !fmap_cons, sum_Z_cons, plus_IZR, mult_IZR, <- IH. done.
Qed.

Lemma sum_R_cons (x : R) (l : list R) : sum_R (x :: l) = (x + sum_R l)%R.
Proof. done. Qed.

Lemma sum_R_deviations (xs : list Z) (m : R) :
  sum_R ((λ x, (IZR x - m) * (IZR x - m))%R <$> xs)
  = (sum_R ((λ x, IZR x * IZR x)%R <$> xs) - 2 * m * sum_R (IZR <$> xs)
     + INR (length xs) * m * m)%R.
Proof.
  induction xs as [|x xs IH].
  - simpl. lra.
  - rewrite !fmap_cons, !sum_R_cons, IH. cbn [length]. rewrite S_INR. lra.
Qed.

Lemma sum_R_deviations_nonneg (xs : list Z) (m : R) :
  (0 <= sum_R ((λ x, (IZR x - m) * (IZR x - m))%R <$> xs))%R.
Proof.
  induction xs as [|x xs IH]; [simpl; lra|].
  rewrite fmap_cons, sum_R_cons.
  pose proof (Rle_0_sqr (IZR x - m)) as Hsq. unfold Rsqr in Hsq. lra.
Qed.

Lemma variance_nvar (xs : list Z) :
  xs ≠ [] →
  (sum_R ((λ x, (IZR x - mean xs) * (IZR x - mean xs))%R <$> xs) / INR (length xs)
   = IZR (nvar xs) / (INR (length xs) * INR (length xs)))%R.
Proof.
  intros Hne.
  assert (0 < INR (length xs))%R as Hn.
  { apply lt_0_INR. destruct xs; [done | simpl; lia]. }
  rewrite sum_R_deviations. unfold mean, nvar.
  rewrite minus_IZR, !mult_IZR, <- INR_IZR_INZ, sum_R_squares, sum_R_IZR.
  field. lra.
Qed.

Lemma nvar_nonneg (xs : list Z) : 0 ≤ nvar xs.
Proof.
  destruct (decide (xs = [])) as [->|Hne]; [done|].
  assert (0 < INR (length xs))%R as Hn.
  { apply lt_0_INR. destruct xs; [done | simpl; lia]. }
  apply le_IZR.
  pose proof (sum_R_deviations_nonneg xs (mean xs)) as Hs.
  pose proof (variance_nvar xs Hne) as Hv.
  assert (IZR (nvar xs)
          = sum_R ((λ x, (IZR x - mean xs) * (IZR x - mean xs))%R <$> xs)
            * INR (length xs))%R as ->.
  { apply (Rmult_eq_reg_r (/ (INR (length xs) * INR (length xs)))%R).
    - unfold Rdiv in Hv. rewrite <- Hv. field. lra.
    - apply Rinv_neq_0_compat. nra. }
  nra.
Qed.

(** The standard deviation of a non-empty sample is the square root of
    [nvar] over the size of the sample. *)
Lemma std_R_nvar (xs : list Z) :
  xs ≠ [] → std_R xs = (sqrt (IZR (nvar xs)) / INR (length xs))%R.
Proof.
  intros Hne.
  assert (0 < INR (length xs))%R as Hn.
  { apply lt_0_INR. destruct xs; [done | simpl; lia]. }
  unfold std_R. rewrite variance_nvar by done.
  rewrite sqrt_div_alt by nra. rewrite sqrt_square by lra. done.
Qed.

Lemma std_R_lt (xs ys : list Z) :
  xs ≠ [] → length xs = length ys →
  (std_R xs < std_R ys)%R ↔ nvar xs < nvar ys.
Proof.
  intros Hne Hlen.
  assert (ys ≠ []) as Hne' by (intros ->; by destruct xs).
  assert (0 < INR (length ys))%R as Hn.
  { apply lt_0_INR. destruct ys; [done | simpl; lia]. }
  rewrite !std_R_nvar by done. rewrite Hlen.
  pose proof (nvar_nonneg xs) as Hx. pose proof (nvar_nonneg ys) as Hy.
  apply IZR_le in Hx, Hy. split.
  - intros Hlt. apply lt_IZR. apply sqrt_lt_0_alt.
    apply (Rmult_lt_reg_r (/ INR (length ys))%R); [by apply Rinv_0_lt_compat | done].
  - intros Hlt%IZR_lt. apply Rmult_lt_compat_r; [by apply Rinv_0_lt_compat|].
    by apply sqrt_lt_1_alt.
Qed.

(** *** Selection for a single tier, in integers *)

Lemma bool_decide_ext_Z (P : Prop) `{Decision P} (x y : Z) :
  (P ↔ x < y) → bool_decide P = (x <? y).
Proof.
  intros HP. destruct (x <? y) eqn:Hlt.
  - apply bool_decide_eq_true. apply HP. by apply Z.ltb_lt.
  - apply bool_decide_eq_false. intros Hp%HP. apply Z.ltb_ge in Hlt. lia.
Qed.

Definition select_nvar_step (v0 : Z) (st : option (ref * ref) * option Z)
    (v : visit) : option (ref * ref) * option Z :=
  match v.2 with
  | [xs] =>
      if (nvar xs <? v0)
         && match st.2 with None => true | Some m => nvar xs <? m end
      then (Some v.1, Some (nvar xs)) else st
  | _ => st
  end.

Definition select_nvar (v0 : Z) (log : list visit) : option (ref * ref) * option Z :=
  foldl (select_nvar_step v0) (None, None) log.

(** Every logged sample is a single one, of the same size as [xs0]. *)
Definition single_tier_log (xs0 : list Z) (log : list visit) : Prop :=
  Forall (λ v : visit, ∃ xs, v.2 = [xs] ∧ length xs = length xs0) log.

#[export] Instance single_tier_log_dec (xs0 : list Z) (log : list visit) :
  Decision (single_tier_log xs0 log).
Proof.
  unfold single_tier_log. apply Forall_dec. intros [[a b] news].
  destruct news as [|xs [|ys news]].
  - right. by intros (xs & [=] & _).
  - destruct (decide (length xs = length xs0)) as [Hl|Hl].
    + left. by exists xs.
    + right. intros (xs' & [= <-] & ?). done.
  - right. by intros (xs' & [=] & _).
Defined.

Lemma select_single_tier (xs0 : list Z) (log : list visit) :
  xs0 ≠ [] → single_tier_log xs0 log →
  (select (F:=R) [xs0] log).1 = (select_nvar (nvar xs0) log).1.
Proof.
  intros Hne Hlog.
  set (rel := λ (st : option (ref * ref) * option R) (stz : option (ref * ref) * option Z),
         st.1 = stz.1
         ∧ match st.2, stz.2 with
           | None, None => True
           | Some h, Some m =>
               ∃ ys, length ys = length xs0 ∧ m = nvar ys
                     ∧ h = (0 + (std_R xs0 - std_R ys))%R
           | _, _ => False
           end).
  assert (rel (select (F:=R) [xs0] log) (select_nvar (nvar xs0) log)) as [? _]; [|done].
  unfold select, select_nvar.
  assert (rel (None, None) (None, None)) as Hinit by done.
  revert Hinit. generalize (@None (ref * ref), @None R) (@None (ref * ref), @None Z).
  induction Hlog as [|v log (xs & Hv & Hlen) _ IH]; intros st stz Hrel; [done|].
  cbn [foldl]. apply IH. clear IH.
  destruct Hrel as [H1 H2]. unfold select_step, select_nvar_step, accepts, improvements.
  rewrite Hv. cbn [zip_with fsum foldl forallb fadd fsub fzero fgt fge np_std RealDispersion].
  assert (xs ≠ []) as Hxs by (intros ->; by destruct xs0).
  assert (bool_decide (0 < 0 + (std_R xs0 - std_R xs))%R = (nvar xs <? nvar xs0)) as ->.
  { apply bool_decide_ext_Z. rewrite <- (std_R_lt xs xs0) by done. split; lra. }
  destruct (nvar xs <? nvar xs0) eqn:Hlt; cbn [andb]; [|done].
  assert (bool_decide (0 <= std_R xs0 - std_R xs)%R = true) as ->.
  { apply bool_decide_eq_true. apply Z.ltb_lt in Hlt.
    apply (std_R_lt xs xs0) in Hlt; [lra|done..]. }
  rewrite !andb_true_r.
  destruct st as [best [h|]], stz as [bestz [m|]]; cbn [fst snd exceeds] in *; try done.
  - destruct H2 as (ys & Hly & -> & ->). cbn [fgt RealDispersion].
    assert (bool_decide (0 + (std_R xs0 - std_R ys) < 0 + (std_R xs0 - std_R xs))%R
            = (nvar xs <? nvar ys)) as ->.
    { apply bool_decide_ext_Z. rewrite <- (std_R_lt xs ys) by congruence. split; lra. }
    destruct (nvar xs <? nvar ys); [|split; [done|]; by exists ys].
    split; [done|]. by exists xs.
  - split; [done|]. by exists xs.
Qed.

(** The search on a cluster with a single tier, computed in integers;
    [None] when the cluster is not of that kind. *)
Definition find_best_swap_nvar (c : Cluster)
    : option (result (Cluster * option (ref * ref))) :=
  match total_sizes_by_type c with
  | [(_, xs0)] =>
      match search_log c with
      | Ok (c', log) =>
          if decide (xs0 ≠ [] ∧ single_tier_log xs0 log)
          then Some (Ok (c', (select_nvar (nvar xs0) log).1)) else None
      | Raise e => Some (Raise e)
      end
  | _ => None
  end.

Lemma find_best_swap_nvar_sound (c : Cluster) (r : result (Cluster * option (ref * ref))) :
  find_best_swap_nvar c = Some r → find_best_swap (F:=R) c = r.
Proof.
  unfold find_best_swap_nvar. rewrite find_best_swap_search_log.
  destruct (total_sizes_by_type c) as [|[ty xs0] [|? ?]]; try done.
  destruct (search_log c) as [[c' log]|e]; [|by intros [= <-]].
  case_decide as Hd; [|done]. intros [= <-]. destruct Hd as [Hne Hlog].
  cbn [mbind result_bind dict_values fmap list_fmap snd].
  by rewrite select_single_tier.
Qed.

(** The loop of [optimize] on a cluster with a single tier, computed in
    integers. *)
Fixpoint optimize_loop_nvar (fuel : nat) (i : Z) (c : Cluster)
    : option (result (option (list (ref * ref) * list string * Cluster))) :=
  match fuel with
  | O => Some (Ok None)
  | S fuel' =>
      match find_best_swap_nvar c with
      | None => None
      | Some (Raise e) => Some (Raise e)
      | Some (Ok (c1, None)) => Some (Ok (Some ([], [], c1)))
      | Some (Ok (c1, Some (osd_a, osd_b))) =>
          match swap_osd c1 osd_a osd_b with
          | Raise e => Some (Raise e)
          | Ok c2 =>
              match optimize_loop_nvar fuel' (i + 1) c2 with
              | None => None
              | Some (Raise e) => Some (Raise e)
              | Some (Ok None) => Some (Ok None)
              | Some (Ok (Some (swaps, out, c3))) =>
                  Some (Ok (Some ((osd_a, osd_b) :: swaps,
                                  print_swap (osds c1) i osd_a osd_b ++ out, c3)))
              end
          end
      end
  end.

Lemma optimize_loop_nvar_sound (fuel : nat) (i : Z) (c : Cluster)
    (r : result (option (list (ref * ref) * list string * Cluster))) :
  optimize_loop_nvar fuel i c = Some r → optimize_loop (F:=R) fuel i c = r.
Proof.
  revert i c r. induction fuel as [|fuel IH]; intros i c r; simpl; [by intros [= <-]|].
  destruct (find_best_swap_nvar c) as [rb|] eqn:Hb; [|done].
  apply find_best_swap_nvar_sound in Hb. rewrite Hb.
  destruct rb as [[c1 [[osd_a osd_b]|]]|e]; cbn [mbind result_bind];
    [|by intros [= <-]..].
  destruct (swap_osd c1 osd_a osd_b) as [c2|e]; cbn [mbind result_bind]; [|by intros [= <-]].
  destruct (optimize_loop_nvar fuel (i + 1) c2) as [r2|] eqn:H2; [|done].
  apply IH in H2. rewrite H2.
  destruct r2 as [[[[swaps out] c3]|]|e]; cbn [mbind result_bind]; by intros [= <-].
Qed.

(** *** The enumeration that the initial cluster suggests *)





Lemma sqrt_IZR_square (k : Z) : 0 ≤ k → sqrt (IZR (k * k)) = IZR k.
Proof. intros Hk. rewrite mult_IZR. apply sqrt_square. by apply IZR_le. Qed.
(** *** Clusters that differ in the order of their buckets only *)




















(** *** What the search logs *)
















(** *** What the selection returns *)

Section SelectR.






End SelectR.




(** *** The shape of the metric *)













(** *** One step of the optimizer *)













(** *** Runs of the optimizer *)





(** *** The visited pairs and the candidates *)















(** * Main results *)

(** ** Hypothetical swaps across tiers *)

(** One host with only an hdd device, another with only an ssd device. *)
Definition two_tier_devices : list CephOsd.t :=
  [CephOsd.mk 0 4000000000000 "" "X" "hdd"; CephOsd.mk 1 1000000000000 "" "Y" "ssd"].

(** C1: the claim says that a hypothetical swap never raises.  On two hosts
    of which one holds only an hdd device and the other only an ssd device,
    [swap_osd] raises [KeyError] at the destination-bucket lookup
    [host_a.osd_by_type[osd_b.bluestore_bdev_type]], and so do
    [find_best_swap] and the optimizer started on that inventory. *)
Theorem swap_osd_missing_bucket_raises (F : Type) (D : Dispersion F) (fuel : nat) :
  swap_osd (group_osds_by_host_and_type two_tier_devices) 0%nat 1%nat
    = Raise (KeyError "ssd")
  ∧ find_best_swap (group_osds_by_host_and_type two_tier_devices)
    = Raise (KeyError "ssd")
  ∧ optimize (S fuel) (group_osds_by_host_and_type two_tier_devices)
    = Raise (KeyError "ssd").
Proof. split; [|split]; reflexivity. Qed.

(** ** The inventory fetch *)




(** ** The metric sees floored totals only *)




(** ** Which hosts enter a tier's sample *)

(** Two hosts that each hold an hdd and an ssd device. *)
Definition mixed_devices : list CephOsd.t :=
  [CephOsd.mk 0 5000000000 "" "X" "hdd"; CephOsd.mk 1 1000000000 "" "X" "ssd";
   CephOsd.mk 2 2000000000 "" "Y" "ssd"; CephOsd.mk 3 7000000000 "" "Y" "hdd"].

(** C4, counterexample: after swapping the hdd device of X with the ssd
    device of Y (a pair that the search evaluates), X holds no hdd device,
    yet its emptied bucket puts a zero into the hdd sample. *)
Lemma emptied_bucket_counts_as_zero :
  match swap_osd (group_osds_by_host_and_type mixed_devices) 0%nat 2%nat with
  | Ok c =>
      total_sizes_by_type c = [("hdd", [0; 12]); ("ssd", [3; 0])]
      ∧ nonempty_sample c "hdd" = [12]
  | Raise _ => False
  end.
Proof. vm_compute. split; reflexivity. Qed.

(** C4, amended: the dispersion of a tier is taken over the floored totals
    of the hosts that have a bucket for the tier, in host order, whether the
    bucket holds devices or not; a tier without any bucket has no entry.  On
    a cluster as the builder makes it no bucket is empty, and these are the
    hosts with at least one device of the tier. *)
Theorem calculate_spread_by_type_sample (F : Type) (D : Dispersion F) :
  (∀ c ty,
     dict_get ty (calculate_spread_by_type c)
     = match bucket_sample c ty with [] => None | l => Some (np_std l) end)
  ∧ (∀ devices ty,
       bucket_sample (group_osds_by_host_and_type devices) ty
       = nonempty_sample (group_osds_by_host_and_type devices) ty).
Proof.
  split.
  - intros c ty. rewrite calculate_spread_by_type_get. by rewrite tier_sample_bucket_sample.
  - intros devices ty. symmetry. apply nonempty_sample_bucket_sample.
    apply group_osds_no_empty_bucket.
Qed.

(** ** Swapping and swapping back *)

Definition three_devices : list CephOsd.t :=
  [CephOsd.mk 0 10000000000 "" "A" "hdd"; CephOsd.mk 1 6000000000 "" "A" "hdd";
   CephOsd.mk 2 3000000000 "" "B" "hdd"].

(** C3, counterexample: swapping osd 0 and osd 2 and swapping them again
    leaves host A with its bucket in another order. *)
Lemma swap_twice_reorders :
  match swap_osd (group_osds_by_host_and_type three_devices) 0%nat 2%nat
        ≫= (λ c1, swap_osd c1 0%nat 2%nat) with
  | Ok c2 =>
      hosts (group_osds_by_host_and_type three_devices) !! 0%nat
        = Some (CephHost.mk "A" [("hdd", [0; 1]%nat)])
      ∧ hosts c2 !! 0%nat = Some (CephHost.mk "A" [("hdd", [1; 0]%nat)])
      ∧ c2 ≠ group_osds_by_host_and_type three_devices
  | Raise _ => False
  end.
Proof. vm_compute. split; [done|]. split; [done|]. by intros [=]. Qed.

(** C3, amended: in a well-formed cluster, swapping two devices of distinct
    hosts and swapping them again succeeds and restores every [hostname]
    field and the contents of every bucket; the order of a bucket is
    restored except that [a] and [b] end up last in their buckets.  When
    they were last already, the cluster is the same as before. *)
Theorem swap_osd_twice_restores (c c1 : Cluster) (a b : ref) (ia ib : nat) (ta tb : string) :
  wf c → held_at c a ia ta → held_at c b ib tb → ia ≠ ib →
  swap_osd c a b = Ok c1 →
  ∃ c2, swap_osd c1 a b = Ok c2
        ∧ osds c2 = osds c
        ∧ shape (hosts c2) = shape (hosts c)
        ∧ (∀ i ty,
             bucket_at (hosts c2) i ty
             = (if decide (ia = i ∧ ta = ty) then move_to_end a
                else if decide (ib = i ∧ tb = ty) then move_to_end b
                else (λ l, l)) <$> bucket_at (hosts c) i ty)
        ∧ (∀ i ty l, bucket_at (hosts c) i ty = Some l →
             ∃ l', bucket_at (hosts c2) i ty = Some l' ∧ l' ≡ₚ l)
        ∧ (∀ la lb, bucket_at (hosts c) ia ta = Some (la ++ [a]) →
             bucket_at (hosts c) ib tb = Some (lb ++ [b]) → c2 = c).
Proof.
  intros Hwf Ha Hb Hne Hswap.
  pose proof (swap_osd_twice _ _ _ _ _ _ _ _ Hwf Ha Hb Hne Hswap) as Htwice.
  eexists. split; [exact Htwice|]. simpl.
  assert (∀ i ty,
    bucket_at (undone_hosts a b ia ib ta tb (hosts c)) i ty
    = (if decide (ia = i ∧ ta = ty) then move_to_end a
       else if decide (ib = i ∧ tb = ty) then move_to_end b
       else (λ l, l)) <$> bucket_at (hosts c) i ty) as Hpt.
  { intros i ty. unfold undone_hosts. rewrite !bucket_at_alter_bucket.
    destruct (bucket_at (hosts c) i ty); simpl; [|done].
    repeat case_decide; try done. naive_solver. }
  assert (shape (undone_hosts a b ia ib ta tb (hosts c)) = shape (hosts c)) as Hshape.
  { unfold undone_hosts. by rewrite !shape_alter_bucket. }
  split; [done|]. split; [done|]. split; [done|]. split.
  - intros i ty l Hl. rewrite Hpt, Hl. simpl. eexists. split; [done|].
    repeat case_decide; try done.
    + apply move_to_end_perm. destruct Ha as (la & Hla & ?). naive_solver.
    + apply move_to_end_perm. destruct Hb as (lb & Hlb & ?). naive_solver.
  - intros la lb Hla Hlb. destruct c as [σ hs]. simpl in *. f_equal.
    apply hosts_ext; [done| |].
    + eapply keys_nodup_shape; [symmetry; exact Hshape | apply Hwf].
    + intros i ty. rewrite Hpt.
      destruct (bucket_at hs i ty) as [l|] eqn:Hl; simpl; [|done]. f_equal.
      repeat case_decide; try done.
      * destruct_and!; simplify_eq. apply move_to_end_last.
        eapply bucket_nodup; [apply Hwf | done].
      * destruct_and!; simplify_eq. apply move_to_end_last.
        eapply bucket_nodup; [apply Hwf | done].
Qed.

Lemma swap_osd_twice_restores_witness :
  wf (group_osds_by_host_and_type three_devices)
  ∧ ∃ c1 c2,
      swap_osd (group_osds_by_host_and_type three_devices) 0%nat 2%nat = Ok c1
      ∧ swap_osd c1 0%nat 2%nat = Ok c2
      ∧ osds c2 = osds (group_osds_by_host_and_type three_devices)
      ∧ shape (hosts c2) = shape (hosts (group_osds_by_host_and_type three_devices)).
Proof.
  assert (wf (group_osds_by_host_and_type three_devices)) as Hwf.
  { apply group_osds_wf. by_compute. }
  split; [exact Hwf|].
  destruct (swap_osd (group_osds_by_host_and_type three_devices) 0%nat 2%nat)
    as [c1|e] eqn:Hswap; [|by vm_compute in Hswap].
  exists c1.
  destruct (swap_osd_twice_restores (group_osds_by_host_and_type three_devices)
              c1 0%nat 2%nat 0%nat 1%nat "hdd" "hdd" Hwf) as (c2 & H2 & Ho & Hs & _).
  - exists [0; 1]%nat. split; [reflexivity | by_compute].
  - exists [2]%nat. split; [reflexivity | by_compute].
  - lia.
  - exact Hswap.
  - exists c2. done.
Defined.

(** ** Conservation of devices *)



(** ** Scenario A *)

(** Host X holds one hdd device of 10 GB, host Y holds hdd devices of 2 GB
    and 6 GB. *)
Definition scenario_a_devices : list CephOsd.t :=
  [CephOsd.mk 0 10000000000 "" "X" "hdd"; CephOsd.mk 1 2000000000 "" "Y" "hdd";
   CephOsd.mk 2 6000000000 "" "Y" "hdd"].

(** C2, counterexample: on Scenario A the search proposes no swap at all,
    so it does not propose the swap of the 10 GB and the 6 GB device. *)
Lemma scenario_a_no_swap :
  match find_best_swap (F:=R) (group_osds_by_host_and_type scenario_a_devices) with
  | Ok (_, best) => best = None
  | Raise _ => False
  end.
Proof.
  erewrite find_best_swap_nvar_sound; [|vm_compute; reflexivity]. done.
Qed.

(** C2, amended: on Scenario A the hdd dispersion is 1 (totals 10 and 8);
    swapping the 10 GB device with the 6 GB device would give X 6 and Y 12
    and raise it to 3, swapping it with the 2 GB device would give 2 and 16
    and raise it to 7; [find_best_swap] returns none, leaves the cluster as
    it was, and the optimizer applies no swap. *)
Theorem scenario_a_is_balanced :
  let c := group_osds_by_host_and_type scenario_a_devices in
  calculate_spread_by_type (F:=R) c = [("hdd", 1%R)]
  ∧ (c1 ← swap_osd c 0%nat 2%nat; Ok (calculate_spread_by_type (F:=R) c1)) = Ok [("hdd", 3%R)]
  ∧ (c1 ← swap_osd c 0%nat 2%nat; Ok (total_sizes_by_type c1)) = Ok [("hdd", [6; 12])]
  ∧ (c1 ← swap_osd c 0%nat 1%nat; Ok (calculate_spread_by_type (F:=R) c1)) = Ok [("hdd", 7%R)]
  ∧ find_best_swap (F:=R) c = Ok (c, None)
  ∧ optimize_loop (F:=R) 1 1 c = Ok (Some ([], [], c)).
Proof.
  assert (std_R [10; 8] = 1%R) as H1.
  { rewrite std_R_nvar by done. change (nvar [10; 8]) with (2 * 2).
    rewrite sqrt_IZR_square by lia. simpl. lra. }
  assert (std_R [6; 12] = 3%R) as H3.
  { rewrite std_R_nvar by done. change (nvar [6; 12]) with (6 * 6).
    rewrite sqrt_IZR_square by lia. simpl. lra. }
  assert (std_R [2; 16] = 7%R) as H7.
  { rewrite std_R_nvar by done. change (nvar [2; 16]) with (14 * 14).
    rewrite sqrt_IZR_square by lia. simpl. lra. }
  cbv zeta. split; [|split; [|split; [|split; [|split]]]].
  - unfold calculate_spread_by_type.
    change (total_sizes_by_type _) with [("hdd", [10; 8])]. simpl. by rewrite H1.
  - change (swap_osd _ 0%nat 2%nat) with
      (Ok (mkCluster
             [CephOsd.mk 0 10000000000 "" "Y" "hdd"; CephOsd.mk 1 2000000000 "" "Y" "hdd";
              CephOsd.mk 2 6000000000 "" "X" "hdd"]
             [CephHost.mk "X" [("hdd", [2%nat])]; CephHost.mk "Y" [("hdd", [1; 0]%nat)]])).
    cbn [mbind result_bind]. unfold calculate_spread_by_type.
    change (total_sizes_by_type _) with [("hdd", [6; 12])]. simpl. by rewrite H3.
  - reflexivity.
  - change (swap_osd _ 0%nat 1%nat) with
      (Ok (mkCluster
             [CephOsd.mk 0 10000000000 "" "Y" "hdd"; CephOsd.mk 1 2000000000 "" "X" "hdd";
              CephOsd.mk 2 6000000000 "" "Y" "hdd"]
             [CephHost.mk "X" [("hdd", [1%nat])]; CephHost.mk "Y" [("hdd", [2; 0]%nat)]])).
    cbn [mbind result_bind]. unfold calculate_spread_by_type.
    change (total_sizes_by_type _) with [("hdd", [2; 16])]. simpl. by rewrite H7.
  - apply find_best_swap_nvar_sound. vm_compute. reflexivity.
  - apply optimize_loop_nvar_sound. vm_compute. reflexivity.
Qed.

(** ** Ties in the search *)



(** ** Runs of the optimizer *)






(** ** Monotone improvement *)



(** ** Termination *)


